(** * Snapshot loader and validator (netsync/snapshot.go)

    A shallow embedding of the snapshot pipeline: the streaming state
    loader [loadState], the trio chain check [checkSnapshot] with
    [validateVotes], the tail writer [saveTailBlocks] and the
    orchestrator [loadSnapshot].

    The packages the loader calls into (core, state, types, trie, rlp,
    consensus, kvstore and the database backend) are collaborators: their
    operations are the methods of the class [Collaborators], and the
    loader is defined, and its properties proved, for every instance.
    Module [Sample] gives one executable instance on which the loader is
    run on concrete snapshots. *)

From Stdlib Require Import ZArith List Bool Lia Permutation.
From Stdlib Require Import Strings.Byte Strings.String.
Import ListNotations.

Local Open Scope Z_scope.

(* ================================================================= *)
(** ** Bytes, hashes and the records of package core *)

(** common.Bytes: a byte slice. *)
Definition Bytes := list byte.

(** common.Hash is a 32-byte array; it is kept as the 256-bit number it
    spells in big-endian order, so that [==] on hashes and
    [bytes.Compare(a.Bytes(), b.Bytes()) == 0] are both equality. *)
Definition Hash := Z.

(** common.Address. *)
Definition Address := Z.

(** The zero value [common.Hash{}]. *)
Definition zeroHash : Hash := 0.

Fixpoint bytes_Equal (a b : Bytes) : bool :=
  match a, b with
  | [], [] => true
  | x :: a', y :: b' => Byte.eqb x y && bytes_Equal a' b'
  | _, _ => false
  end.

(** strings.HasPrefix on the bytes of the two strings. *)
Fixpoint HasPrefix (s p : Bytes) : bool :=
  match p, s with
  | [], _ => true
  | y :: p', x :: s' => Byte.eqb x y && HasPrefix s' p'
  | _ :: _, [] => false
  end.

Definition bytes_of (s : string) : Bytes := list_byte_of_string s.

(** The big-endian bytes of a number, [n] bytes wide; [Hash_Bytes] is
    the slice [h[:]] of a hash. *)
Definition byte_of_Z (z : Z) : byte :=
  match Byte.of_N (Z.to_N (z mod 256)) with
  | Some b => b
  | None => x00
  end.

Fixpoint be_bytes (n : nat) (z : Z) : Bytes :=
  match n with
  | O => []
  | S n' => be_bytes n' (z / 256) ++ [byte_of_Z z]
  end.

Definition Hash_Bytes (h : Hash) : Bytes := be_bytes 32 h.

Record Vote := {
  vote_Block : Hash;
  vote_Height : Z;
  vote_ID : Address;
  vote_Epoch : Z;
  vote_Signature : Bytes
}.

(** A vote set is used through [Votes()] only: the list of its votes. *)
Definition VoteSet := list Vote.

Record CommitCertificate := {
  cc_Votes : VoteSet;
  cc_BlockHash : Hash
}.

(** The header fields the loader reads, and the rest of the header
    (which only [Hash()] looks at) as uninterpreted bytes. *)
Record BlockHeader := {
  Height : Z;
  Parent : Hash;
  HCC : CommitCertificate;
  StateHash : Hash;
  hdr_rest : Bytes
}.

Definition VCPProof := list (Bytes * Bytes).

Record SnapshotFirstBlock := {
  first_Header : BlockHeader;
  first_Proof : VCPProof
}.

Record SnapshotSecondBlock := {
  second_Header : BlockHeader
}.

Record SnapshotThirdBlock := {
  third_Header : BlockHeader;
  third_VoteSet : VoteSet
}.

Record SnapshotBlockTrio := {
  First : SnapshotFirstBlock;
  Second : SnapshotSecondBlock;
  Third : SnapshotThirdBlock
}.

Record SnapshotMetadata := {
  BlockTrios : list SnapshotBlockTrio
}.

Record SnapshotTrieRecord := {
  K : Bytes;
  V : Bytes
}.

(** types.Account: the loader reads its storage root only. *)
Record Account := {
  Root : Hash
}.

Record Validator := {
  val_ID : Address;
  val_Stake : Z
}.

Definition ValidatorSet := list Validator.

Record StakeHolder := {
  holder_ID : Address;
  holder_Stake : Z
}.

Definition ValidatorCandidatePool := list StakeHolder.

Inductive BlockStatus :=
| BlockStatusPending
| BlockStatusDirectlyFinalized.

Record ExtendedBlock := {
  ext_Block : BlockHeader;
  ext_Status : BlockStatus;
  ext_Children : list Hash;
  ext_HasValidatorUpdate : bool
}.

(** What [kvstore.Put] is handed: the value before its encoding. *)
Inductive Stored :=
| StoredTrio (t : SnapshotBlockTrio)
| StoredBlock (b : ExtendedBlock).

(** state.StoreView as the loader drives it: created at a height over a
    root, and filled by [Set]. *)
Record StoreView := {
  sv_height : Z;
  sv_root : Hash;
  sv_leaves : list (Bytes * Bytes)
}.

Definition NewStoreView (height : Z) (root : Hash) : StoreView :=
  {| sv_height := height; sv_root := root; sv_leaves := [] |}.

Definition StoreView_Height (sv : StoreView) : Z := sv_height sv.

(** [sv.Set(k, v)]: the leaves in the order they were set, latest last. *)
Definition StoreView_Set (sv : StoreView) (k v : Bytes) : StoreView :=
  {| sv_height := sv_height sv;
     sv_root := sv_root sv;
     sv_leaves := sv_leaves sv ++ [(k, v)] |}.

Definition HeightList := list Z.

(** Modelled from the spec: [stake_height_list.contains(h)], the
    membership test of types.HeightList, whose code is not part of the
    loader. *)
Definition HeightList_Contains (hl : HeightList) (h : Z) : bool :=
  existsb (Z.eqb h) hl.

(* ================================================================= *)
(** ** Constants *)

Definition mainnetGenesisBlockHash : Hash :=
  0xf58f0c574416abf4eb06bfaa211b9f1ba3faa4c3e9fcbf95156178ff08cb8579.

Definition genesisBlockHeight : Z := 0.

(** Modelled from the spec: the control keys [SV_START = 0xF8] and
    [SV_END = 0xF9] of package core, one byte each. *)
Definition SVStart : byte := xf8.
Definition SVEnd : byte := xf9.

(** Modelled from the spec: core.BlockTrioStoreKeyPrefix, the ASCII
    prefix of the keys of the persisted trios. *)
Definition BlockTrioStoreKeyPrefix : string := "btrio/".

(** The prefix of the account leaves. *)
Definition accountPrefix : Bytes := bytes_of "ls/a/".

(* ================================================================= *)
(** ** Results: a value, a returned error, or a panic *)

Inductive Error :=
| IOError
| BadMetadata
| ReadFailed
| UnclosedView
| UnmatchedEnd
| HeightMismatch
| StorageRootMismatch
| LeafOutsideView
| AccountDecodeFailed
| StateHashMismatch
| GenesisHeightInvalid
| GenesisHashMismatch
| BadGenesis (cause : Error)
| BadParentLink
| BadHCCLink
| NoMajority
| VoteNotValid
| VoteWrongBlock
| ValidatorNotFound
| InvalidVotes (cause : Error)
| ProofRejected
| VCPDecodeFailed
| VCPProofFailed (cause : Error)
| FinalValidatorSetMismatch
| ValidationFailed (cause : Error).

(** The text each error carries in the source ([%v] stands for the
    formatted cause or value). *)
Fixpoint message (e : Error) : string :=
  match e with
  | IOError => "open failed"
  | BadMetadata => "Failed to load snapshot metadata, %v"
  | ReadFailed => "Failed to read snapshot record, %v"
  | UnclosedView => "Still some storeview unhandled"
  | UnmatchedEnd => "Missing storeview to handle"
  | HeightMismatch => "Storeview start and end heights don't match"
  | StorageRootMismatch => "Account storage root doesn't match"
  | LeafOutsideView => "Missing storeview to handle"
  | AccountDecodeFailed => "Failed to parse account, %v"
  | StateHashMismatch => "StateHash not matching"
  | GenesisHeightInvalid => "Invalid genesis block height: %v"
  | GenesisHashMismatch => "Genesis block hash mismatch, calculated hash: %v"
  | BadGenesis c => "Invalid genesis block: " ++ message c
  | BadParentLink => "block trio has invalid Parent link"
  | BadHCCLink => "block trio has invalid HCC link: %v, %v; %v, %v"
  | NoMajority => "block doesn't have majority votes"
  | VoteNotValid => "vote is not valid, %v"
  | VoteWrongBlock => "vote is not for corresponding block"
  | ValidatorNotFound => "can't find validator for vote"
  | InvalidVotes c => "Failed to validate voteSet, " ++ message c
  | ProofRejected => "proof rejected"
  | VCPDecodeFailed => "rlp: decoding failed"
  | VCPProofFailed c =>
      "Failed to retrieve validator set from VCP proof: " ++ message c
  | FinalValidatorSetMismatch =>
      "The latest proven and retrieved validator set does not match"
  | ValidationFailed c => "Snapshot state validation failed: " ++ message c
  end.

Inductive PanicCause :=
| NilDereference
| IndexOutOfRange
| IllegalBase.

Inductive Outcome (A : Type) :=
| Ok (a : A)
| Err (e : Error)
| Panic (p : PanicCause).

Arguments Ok {A} a.
Arguments Err {A} e.
Arguments Panic {A} p.

Definition bind {A B} (m : Outcome A) (f : A -> Outcome B) : Outcome B :=
  match m with
  | Ok a => f a
  | Err e => Err e
  | Panic p => Panic p
  end.

Notation "x <- m ;; k" := (bind m (fun x => k))
  (at level 61, m at next level, right associativity).

(** [if err != nil { return fmt.Errorf(..., err) }]: an error is wrapped
    on its way out, a panic is not. *)
Definition wrap {A} (w : Error -> Error) (m : Outcome A) : Outcome A :=
  match m with
  | Ok a => Ok a
  | Err e => Err (w e)
  | Panic p => Panic p
  end.

Definition succeeded {A} (m : Outcome A) : bool :=
  match m with
  | Ok _ => true
  | _ => false
  end.

(* ================================================================= *)
(** ** SVStack *)

Definition SVStack := list StoreView.

Definition push (s : SVStack) (sv : StoreView) : SVStack := s ++ [sv].

Definition pop (s : SVStack) : SVStack * option StoreView :=
  match List.length s with
  | O => (s, None)
  | S l' => (firstn l' s, nth_error s l')
  end.

Definition peek (s : SVStack) : option StoreView :=
  match List.length s with
  | O => None
  | S l' => nth_error s l'
  end.

(** The view [peek] points to is shared with the stack: a [Set] through
    the pointer changes the top entry in place. *)
Definition update_top (s : SVStack) (sv : StoreView) : SVStack :=
  match List.length s with
  | O => s
  | S l' => firstn l' s ++ [sv]
  end.

(* ================================================================= *)
(** ** The collaborators *)

(** The operations of the other packages that the loader calls.  A
    database is a value of [DB]; the operations that read or write it
    take it and give back the database they leave behind. *)
Class Collaborators := {
  DB : Type;
  (** core.Bytestoi: the height in the value of a control record. *)
  Bytestoi : Bytes -> Z;
  (** BlockHeader.Hash(). *)
  BlockHeader_Hash : BlockHeader -> Hash;
  (** vote.Validate().IsOK(). *)
  Vote_Validate : Vote -> bool;
  (** ValidatorSet.HasMajority, GetValidator (with [None] for
      its error) and Equals. *)
  HasMajority : ValidatorSet -> VoteSet -> bool;
  GetValidator : ValidatorSet -> Address -> option Validator;
  ValidatorSet_Equals : ValidatorSet -> ValidatorSet -> bool;
  (** types.FromBytes into an account; [None] for its error. *)
  Account_FromBytes : Bytes -> option Account;
  (** StoreView.Save(): the root hash, the nodes written. *)
  StoreView_Save : StoreView -> DB -> Hash * DB;
  GetValidatorCandidatePool : StoreView -> DB -> ValidatorCandidatePool;
  GetStakeTransactionHeightList : StoreView -> DB -> HeightList;
  ValidatorCandidatePoolKey : Bytes;
  (** trie.VerifyProof: the proven value, [None] for its error. *)
  VerifyProof : Hash -> Bytes -> VCPProof -> option Bytes;
  (** rlp.DecodeBytes into a candidate pool; [None] for its error. *)
  DecodeVCP : Bytes -> option ValidatorCandidatePool;
  SelectTopStakeHoldersAsValidators : ValidatorCandidatePool -> ValidatorSet;
  (** kvstore.Put: the database it leaves, and [true] when it returns
      an error. *)
  KVStore_Put : Bytes -> Stored -> DB -> DB * bool
}.

(** What [core.ReadRecord] gives for a trie record: the record, or an
    error that is not [io.EOF].  The end of the list is [io.EOF]. *)
Inductive ReadResult :=
| ReadOk (record : SnapshotTrieRecord)
| ReadError.

(** A snapshot file once opened: the outcome of reading the metadata
    record ([None] when that read fails), then the trie records. *)
Record SnapshotFile := {
  file_metadata : option SnapshotMetadata;
  file_records : list ReadResult
}.

(* ================================================================= *)
(** ** strconv.FormatUint *)

Definition digits : Bytes := bytes_of "0123456789abcdefghijklmnopqrstuvwxyz".

Definition digit (d : Z) : byte := nth (Z.to_nat d) digits x00.

(** The digits of [u] in [base], most significant first; a uint64 has at
    most 64 of them. *)
Fixpoint formatBits (fuel : nat) (u base : Z) (acc : Bytes) : Bytes :=
  match fuel with
  | O => acc
  | S fuel' =>
      if u <? base then digit u :: acc
      else formatBits fuel' (u / base) base (digit (u mod base) :: acc)
  end.

(** [strconv.FormatUint(i, base)] panics unless [2 <= base <= 36]. *)
Definition FormatUint (i : Z) (base : Z) : Outcome Bytes :=
  if (base <? 2) || (Z.of_nat (List.length digits) <? base)
  then Panic IllegalBase
  else Ok (formatBits 64 i base []).

(* ================================================================= *)
(** ** loadState *)

(** The variables of [loadState] that live across the iterations of its
    loop, and the database (of type [D]) the views write to. *)
Record LoaderVars (D : Type) := {
  ls_db : D;
  ls_svStack : SVStack;
  ls_sv : option StoreView;
  ls_hash : Hash;
  ls_account : option Account
}.

Arguments ls_db {D} _.
Arguments ls_svStack {D} _.
Arguments ls_sv {D} _.
Arguments ls_hash {D} _.
Arguments ls_account {D} _.

Section Loader.

Context {C : Collaborators}.

Definition LoaderState : Type := LoaderVars DB.

Definition initialState (db : DB) : LoaderState :=
  {| ls_db := db; ls_svStack := []; ls_sv := None;
     ls_hash := zeroHash; ls_account := None |}.

(** The SV_START branch; its [sv] is a new variable of the branch. *)
Definition loadStart (st : LoaderState) (record : SnapshotTrieRecord)
  : Outcome LoaderState :=
  let height := Bytestoi (V record) in
  let sv := NewStoreView height zeroHash in
  Ok {| ls_db := ls_db st;
        ls_svStack := push (ls_svStack st) sv;
        ls_sv := ls_sv st;
        ls_hash := ls_hash st;
        ls_account := ls_account st |}.

(** The SV_END branch; it assigns the [sv] and [hash] of the function. *)
Definition loadEnd (st : LoaderState) (record : SnapshotTrieRecord)
  : Outcome LoaderState :=
  let (svStack, popped) := pop (ls_svStack st) in
  match popped with
  | None => Err UnmatchedEnd
  | Some sv =>
      let height := Bytestoi (V record) in
      if negb (height =? StoreView_Height sv) then Err HeightMismatch
      else
        let (hash, db) := StoreView_Save sv (ls_db st) in
        let closed :=
          {| ls_db := db; ls_svStack := svStack; ls_sv := Some sv;
             ls_hash := hash; ls_account := None |} in
        match peek svStack with
        | None => Ok closed
        | Some outer =>
            if height =? StoreView_Height outer then
              (* a view of account storage: account.Root is read *)
              match ls_account st with
              | None => Panic NilDereference
              | Some account =>
                  if negb (Root account =? hash) then Err StorageRootMismatch
                  else Ok closed
              end
            else Ok closed
        end
  end.

(** The leaf branch. *)
Definition loadLeaf (st : LoaderState) (record : SnapshotTrieRecord)
  : Outcome LoaderState :=
  match peek (ls_svStack st) with
  | None => Err LeafOutsideView
  | Some sv =>
      let svStack :=
        update_top (ls_svStack st) (StoreView_Set sv (K record) (V record)) in
      let keep account :=
        Ok {| ls_db := ls_db st; ls_svStack := svStack; ls_sv := ls_sv st;
              ls_hash := ls_hash st; ls_account := account |} in
      match ls_account st with
      | Some account => keep (Some account)
      | None =>
          if HasPrefix (K record) accountPrefix then
            match Account_FromBytes (V record) with
            | None => Err AccountDecodeFailed
            | Some account => keep (Some account)
            end
          else keep None
      end
  end.

(** One iteration of the loop on a record that was read. *)
Definition loadRecord (st : LoaderState) (record : SnapshotTrieRecord)
  : Outcome LoaderState :=
  if bytes_Equal (K record) [SVStart] then loadStart st record
  else if bytes_Equal (K record) [SVEnd] then loadEnd st record
  else loadLeaf st record.

(** The loop, from the state [st], over what is left of the file. *)
Fixpoint loadLoop (file : list ReadResult) (st : LoaderState)
  : Outcome LoaderState :=
  match file with
  | [] =>
      match peek (ls_svStack st) with
      | Some _ => Err UnclosedView
      | None => Ok st
      end
  | ReadError :: _ => Err ReadFailed
  | ReadOk record :: rest =>
      st' <- loadRecord st record ;; loadLoop rest st'
  end.

Definition loadState (file : list ReadResult) (db : DB)
  : Outcome (option StoreView * Hash * DB) :=
  st <- loadLoop file (initialState db) ;;
  Ok (ls_sv st, ls_hash st, ls_db st).

End Loader.

(* ================================================================= *)
(** ** checkSnapshot, saveTailBlocks and loadSnapshot *)

Section Pipeline.

Context {C : Collaborators}.

(** [metadata.BlockTrios[len(metadata.BlockTrios)-1]]. *)
Definition tailTrio (metadata : SnapshotMetadata)
  : Outcome SnapshotBlockTrio :=
  match List.length (BlockTrios metadata) with
  | O => Panic IndexOutOfRange
  | S n =>
      match nth_error (BlockTrios metadata) n with
      | Some trio => Ok trio
      | None => Panic IndexOutOfRange
      end
  end.

(** The loop over [voteSet.Votes()]. *)
Fixpoint validateEachVote (validatorSet : ValidatorSet) (block : BlockHeader)
  (votes : list Vote) : Outcome unit :=
  match votes with
  | [] => Ok tt
  | vote :: rest =>
      if negb (Vote_Validate vote) then Err VoteNotValid
      else if negb (vote_Block vote =? BlockHeader_Hash block)
      then Err VoteWrongBlock
      else
        match GetValidator validatorSet (vote_ID vote) with
        | None => Err ValidatorNotFound
        | Some _ => validateEachVote validatorSet block rest
        end
  end.

Definition validateVotes (validatorSet : ValidatorSet) (block : BlockHeader)
  (voteSet : VoteSet) : Outcome unit :=
  if negb (HasMajority validatorSet voteSet) then Err NoMajority
  else validateEachVote validatorSet block voteSet.

(** A nil view cannot be asked for its candidate pool. *)
Definition getValidatorSetFromSV (sv : option StoreView) (db : DB)
  : Outcome ValidatorSet :=
  match sv with
  | None => Panic NilDereference
  | Some v =>
      let vcp := GetValidatorCandidatePool v db in
      Ok (SelectTopStakeHoldersAsValidators vcp)
  end.

Definition getValidatorSetFromVCPProof (stateHash : Hash)
  (recoverredVp : VCPProof) : Outcome ValidatorSet :=
  match VerifyProof stateHash ValidatorCandidatePoolKey recoverredVp with
  | None => Err ProofRejected
  | Some serializedVCP =>
      match DecodeVCP serializedVCP with
      | None => Err VCPDecodeFailed
      | Some vcp => Ok (SelectTopStakeHoldersAsValidators vcp)
      end
  end.

Definition validateGenesisBlock (block : BlockHeader) (db : DB)
  : Outcome ValidatorSet :=
  if negb (Height block =? genesisBlockHeight) then Err GenesisHeightInvalid
  else if negb (BlockHeader_Hash block =? mainnetGenesisBlockHash)
  then Err GenesisHashMismatch
  else
    let gsv := NewStoreView (Height block) (StateHash block) in
    getValidatorSetFromSV (Some gsv) db.

(** The checks on one trio that is not the first of the list. *)
Definition checkLinkedTrio (provenValSet : option ValidatorSet)
  (blockTrio : SnapshotBlockTrio) : Outcome ValidatorSet :=
  let first := First blockTrio in
  let second := Second blockTrio in
  let third := Third blockTrio in
  if negb (Parent (second_Header second)
             =? BlockHeader_Hash (first_Header first))
     || negb (Parent (third_Header third)
                =? BlockHeader_Hash (second_Header second))
  then Err BadParentLink
  else if negb (cc_BlockHash (HCC (second_Header second))
                  =? BlockHeader_Hash (first_Header first))
          || negb (cc_BlockHash (HCC (third_Header third))
                     =? BlockHeader_Hash (second_Header second))
  then Err BadHCCLink
  else
    match provenValSet with
    | None => Panic NilDereference
    | Some validatorSet =>
        _ <- wrap InvalidVotes
               (validateVotes validatorSet (second_Header second)
                  (cc_Votes (HCC (third_Header third)))) ;;
        wrap VCPProofFailed
          (getValidatorSetFromVCPProof (StateHash (first_Header first))
             (first_Proof first))
    end.

(** The loop over the trios, from index [idx] on. *)
Fixpoint checkTrios (idx : nat) (trios : list SnapshotBlockTrio)
  (provenValSet : option ValidatorSet) (db : DB)
  : Outcome (option ValidatorSet) :=
  match trios with
  | [] => Ok provenValSet
  | blockTrio :: rest =>
      proven <-
        match idx with
        | O =>
            wrap BadGenesis
              (validateGenesisBlock (second_Header (Second blockTrio)) db)
        | S _ => checkLinkedTrio provenValSet blockTrio
        end ;;
      checkTrios (S idx) rest (Some proven) db
  end.

(** The call on the votes of the tail's third block is a statement of
    its own: what it returns is not bound to anything. *)
Definition checkSnapshot (sv : option StoreView) (hash : Hash)
  (metadata : SnapshotMetadata) (db : DB) : Outcome unit :=
  tail <- tailTrio metadata ;;
  let secondBlock := second_Header (Second tail) in
  if negb (StateHash secondBlock =? hash) then Err StateHashMismatch
  else
    provenValSet <- checkTrios 0 (BlockTrios metadata) None db ;;
    tailBlockTrio <- tailTrio metadata ;;
    match provenValSet with
    | None => Panic NilDereference
    | Some proven =>
        let _ := validateVotes proven (third_Header (Third tailBlockTrio))
                   (third_VoteSet (Third tailBlockTrio)) in
        retrievedValSet <- getValidatorSetFromSV sv db ;;
        if negb (ValidatorSet_Equals proven retrievedValSet)
        then Err FinalValidatorSetMismatch
        else Ok tt
    end.

(** What [kvstore.Put] returns is dropped at each of its calls. *)
Definition put (key : Bytes) (value : Stored) (db : DB) : DB :=
  fst (KVStore_Put key value db).

Definition saveTailBlocks (metadata : SnapshotMetadata)
  (sv : option StoreView) (db : DB) : Outcome (BlockHeader * DB) :=
  tailBlockTrio <- tailTrio metadata ;;
  let firstBlock := first_Header (First tailBlockTrio) in
  let secondBlock := second_Header (Second tailBlockTrio) in
  match sv with
  | None => Panic NilDereference
  | Some v =>
      let hl := GetStakeTransactionHeightList v db in
      let db1 :=
        if negb (Height secondBlock =? genesisBlockHeight) then
          let firstExt :=
            {| ext_Block := firstBlock;
               ext_Status := BlockStatusDirectlyFinalized;
               ext_Children := [BlockHeader_Hash secondBlock];
               ext_HasValidatorUpdate :=
                 HeightList_Contains hl (Height firstBlock) |} in
          put (Hash_Bytes (BlockHeader_Hash firstBlock))
            (StoredBlock firstExt) db
        else db in
      let secondExt :=
        {| ext_Block := secondBlock;
           ext_Status := BlockStatusDirectlyFinalized;
           ext_Children := [];
           ext_HasValidatorUpdate :=
             HeightList_Contains hl (Height secondBlock) |} in
      let db2 :=
        put (Hash_Bytes (BlockHeader_Hash secondBlock))
          (StoredBlock secondExt) db1 in
      Ok (secondBlock, db2)
  end.

(** The loop that persists the trios before the tail; [n] is
    [len(metadata.BlockTrios)] and [i] the index of the head of [trios]. *)
Fixpoint saveBlockTrios (n i : nat) (trios : list SnapshotBlockTrio)
  (db : DB) : Outcome DB :=
  match trios with
  | [] => Ok db
  | blockTrio :: rest =>
      db' <-
        (if Z.of_nat i <? Z.of_nat n - 1 then
           digits <-
             FormatUint (Height (first_Header (First blockTrio))) 64 ;;
           let blockTrioKey := bytes_of BlockTrioStoreKeyPrefix ++ digits in
           Ok (put blockTrioKey (StoredTrio blockTrio) db)
         else Ok db) ;;
      saveBlockTrios n (S i) rest db'
  end.

(** [file] is [None] when the path cannot be opened. *)
Definition loadSnapshot (file : option SnapshotFile) (db : DB)
  : Outcome (BlockHeader * DB) :=
  match file with
  | None => Err IOError
  | Some f =>
      match file_metadata f with
      | None => Err BadMetadata
      | Some metadata =>
          loaded <- loadState (file_records f) db ;;
          let '(sv, hash, db1) := loaded in
          _ <- wrap ValidationFailed (checkSnapshot sv hash metadata db1) ;;
          db2 <- saveBlockTrios (List.length (BlockTrios metadata)) 0
                   (BlockTrios metadata) db1 ;;
          saveTailBlocks metadata sv db2
      end
  end.

Definition LoadSnapshot (file : option SnapshotFile) (db : DB)
  : Outcome (BlockHeader * DB) :=
  loadSnapshot file db.

End Pipeline.

(* ================================================================= *)
(** ** A sample instance of the collaborators *)

(** An executable stand-in for the other packages, small enough to run
    the loader on concrete snapshots: an in-memory database, an additive
    digest in place of the Merkle root, and byte-per-field codecs. *)
Module Sample.

Definition two256 : Z := 2 ^ 256.

(** Modelled from the spec: the height in a control record is the
    big-endian number its value spells. *)
Definition be_decode (bs : Bytes) : Z :=
  fold_left (fun acc b => acc * 256 + Z.of_N (Byte.to_N b)) bs 0.

Record MemDB := {
  db_nodes : list (Hash * list (Bytes * Bytes));
  db_kv : list (Bytes * Stored);
  db_readonly : bool
}.

Definition emptyDB : MemDB :=
  {| db_nodes := []; db_kv := []; db_readonly := false |}.


Definition kv_put (key : Bytes) (value : Stored) (db : MemDB)
  : MemDB * bool :=
  if db_readonly db then (db, true)
  else ({| db_nodes := db_nodes db;
           db_kv := (key, value) :: db_kv db;
           db_readonly := false |}, false).

Fixpoint kv_get (key : Bytes) (kv : list (Bytes * Stored)) : option Stored :=
  match kv with
  | [] => None
  | (k, v) :: rest => if bytes_Equal k key then Some v else kv_get key rest
  end.

Definition header_hash (h : BlockHeader) : Hash :=
  (be_decode (hdr_rest h) + 31 * Height h + 17 * StateHash h
   + 13 * Parent h + 7 * cc_BlockHash (HCC h)) mod two256.

(** A vote counts as signed when its signature is not empty. *)
Definition vote_ok (v : Vote) : bool :=
  negb (bytes_Equal (vote_Signature v) []).

Definition get_validator (vs : ValidatorSet) (id : Address)
  : option Validator :=
  find (fun v => val_ID v =? id) vs.

Definition total_stake (vs : ValidatorSet) : Z :=
  fold_right (fun v acc => val_Stake v + acc) 0 vs.

(** Modelled from the spec: [HasMajority] holds when the validators
    with a vote in the set, each counted once, carry two-thirds of the
    total stake. *)
Definition has_majority (vs : ValidatorSet) (votes : VoteSet) : bool :=
  let voted :=
    filter (fun v => existsb (fun vt => vote_ID vt =? val_ID v) votes) vs in
  negb (total_stake vs =? 0)
  && (2 * total_stake vs <=? 3 * total_stake voted).

Fixpoint valset_equals (a b : ValidatorSet) : bool :=
  match a, b with
  | [], [] => true
  | x :: a', y :: b' =>
      (val_ID x =? val_ID y) && (val_Stake x =? val_Stake y)
      && valset_equals a' b'
  | _, _ => false
  end.

(** The sample account codec: the 32 bytes of the storage root. *)
Definition account_from_bytes (bs : Bytes) : option Account :=
  if Nat.eqb (List.length bs) 32 then Some {| Root := be_decode bs |}
  else None.

Definition leaf_digest (kv : Bytes * Bytes) : Z :=
  1 + be_decode (fst kv) * 1000003 + be_decode (snd kv).

(** The sample root: a sum over the leaves, so that it does not depend
    on the order in which they were set. *)
Definition root_of (base : Hash) (leaves : list (Bytes * Bytes)) : Hash :=
  fold_right (fun kv acc => (leaf_digest kv + acc) mod two256) base leaves.

Definition save (sv : StoreView) (db : MemDB) : Hash * MemDB :=
  let root := root_of (sv_root sv) (sv_leaves sv) in
  (root, {| db_nodes := (root, sv_leaves sv) :: db_nodes db;
            db_kv := db_kv db;
            db_readonly := db_readonly db |}).

Fixpoint leaf_get (key : Bytes) (leaves : list (Bytes * Bytes))
  : option Bytes :=
  match leaves with
  | [] => None
  | (k, v) :: rest =>
      match leaf_get key rest with
      | Some v' => Some v'
      | None => if bytes_Equal k key then Some v else None
      end
  end.

Fixpoint nodes_get (root : Hash) (nodes : list (Hash * list (Bytes * Bytes)))
  : list (Bytes * Bytes) :=
  match nodes with
  | [] => []
  | (r, leaves) :: rest => if r =? root then leaves else nodes_get root rest
  end.

(** What a view reads under a key: its own leaves first, then the trie
    stored in the database under the root it was opened over. *)
Definition view_get (sv : StoreView) (db : MemDB) (key : Bytes)
  : option Bytes :=
  match leaf_get key (sv_leaves sv) with
  | Some v => Some v
  | None => leaf_get key (nodes_get (sv_root sv) (db_nodes db))
  end.

Definition vcp_key : Bytes := bytes_of "ls/vcp".
Definition height_list_key : Bytes := bytes_of "ls/shl".

(** The sample pool codec: a holder id byte, then its stake byte. *)
Fixpoint decode_vcp (bs : Bytes) : option ValidatorCandidatePool :=
  match bs with
  | [] => Some []
  | id :: stake :: rest =>
      match decode_vcp rest with
      | Some pool =>
          Some ({| holder_ID := Z.of_N (Byte.to_N id);
                   holder_Stake := Z.of_N (Byte.to_N stake) |} :: pool)
      | None => None
      end
  | [_] => None
  end.

Definition get_vcp (sv : StoreView) (db : MemDB) : ValidatorCandidatePool :=
  match view_get sv db vcp_key with
  | Some bs => match decode_vcp bs with Some pool => pool | None => [] end
  | None => []
  end.

Definition get_height_list (sv : StoreView) (db : MemDB) : HeightList :=
  match view_get sv db height_list_key with
  | Some bs => map (fun b => Z.of_N (Byte.to_N b)) bs
  | None => []
  end.

(** The sample proof of a slot is the list of the leaves of the trie:
    it is accepted when they add up to the root. *)
Definition verify_proof (root : Hash) (key : Bytes) (proof : VCPProof)
  : option Bytes :=
  if root_of zeroHash proof =? root then leaf_get key proof else None.

Definition outranks (a b : StakeHolder) : bool :=
  (holder_Stake b <? holder_Stake a)
  || ((holder_Stake a =? holder_Stake b) && (holder_ID a <=? holder_ID b)).

Fixpoint insert_holder (h : StakeHolder) (sorted : list StakeHolder)
  : list StakeHolder :=
  match sorted with
  | [] => [h]
  | x :: rest => if outranks h x then h :: sorted
                 else x :: insert_holder h rest
  end.

(** Modelled from the spec: the holders in stake-descending order, ties
    broken by id. *)
Definition select_top (pool : ValidatorCandidatePool) : ValidatorSet :=
  map (fun h => {| val_ID := holder_ID h; val_Stake := holder_Stake h |})
    (fold_right insert_holder [] pool).

#[export] Instance sample : Collaborators := {
  DB := MemDB;
  Bytestoi := be_decode;
  BlockHeader_Hash := header_hash;
  Vote_Validate := vote_ok;
  HasMajority := has_majority;
  GetValidator := get_validator;
  ValidatorSet_Equals := valset_equals;
  Account_FromBytes := account_from_bytes;
  StoreView_Save := save;
  GetValidatorCandidatePool := get_vcp;
  GetStakeTransactionHeightList := get_height_list;
  ValidatorCandidatePoolKey := vcp_key;
  VerifyProof := verify_proof;
  DecodeVCP := decode_vcp;
  SelectTopStakeHoldersAsValidators := select_top;
  KVStore_Put := kv_put
}.

End Sample.

(* ================================================================= *)
(** ** Sample snapshots *)

Module Scenario.

Import Sample.

Definition start (h : Z) : SnapshotTrieRecord :=
  {| K := [SVStart]; V := be_bytes 8 h |}.

Definition stop (h : Z) : SnapshotTrieRecord :=
  {| K := [SVEnd]; V := be_bytes 8 h |}.

Definition leaf (k v : Bytes) : SnapshotTrieRecord := {| K := k; V := v |}.

(** The account leaf of the account named [name], with storage root
    [root]. *)
Definition accountLeaf (name : string) (root : Hash) : SnapshotTrieRecord :=
  leaf (accountPrefix ++ bytes_of name) (be_bytes 32 root).

(** Three holders, ids 1 to 3, of stake 10 each. *)
Definition poolBytes : Bytes := [x01; x0a; x02; x0a; x03; x0a].

Definition poolLeaf : SnapshotTrieRecord := leaf vcp_key poolBytes.

Definition stateRecords : list SnapshotTrieRecord :=
  [start 0; poolLeaf; stop 0].

Definition stateRoot : Hash := root_of zeroHash [(vcp_key, poolBytes)].

Definition noCertificate : CommitCertificate :=
  {| cc_Votes := []; cc_BlockHash := zeroHash |}.

(** A header of the given fields whose sample hash is [target]. *)
Definition headerWithHash (target : Hash) (height : Z) (parent : Hash)
  (hcc : CommitCertificate) (stateHash : Hash) : BlockHeader :=
  {| Height := height; Parent := parent; HCC := hcc; StateHash := stateHash;
     hdr_rest :=
       be_bytes 32 ((target - 31 * height - 17 * stateHash - 13 * parent
                     - 7 * cc_BlockHash hcc) mod two256) |}.

Definition genesisHeader : BlockHeader :=
  headerWithHash mainnetGenesisBlockHash genesisBlockHeight zeroHash
    noCertificate stateRoot.

Definition voteFor (block : Hash) (id : Address) : Vote :=
  {| vote_Block := block; vote_Height := 0; vote_ID := id; vote_Epoch := 0;
     vote_Signature := [x01] |}.

(** The only trio of a snapshot taken at genesis; nobody has voted for
    its third block. *)
Definition genesisTrio : SnapshotBlockTrio :=
  {| First := {| first_Header := genesisHeader; first_Proof := [] |};
     Second := {| second_Header := genesisHeader |};
     Third :=
       {| third_Header :=
            headerWithHash 0x33 1 mainnetGenesisBlockHash
              {| cc_Votes := []; cc_BlockHash := mainnetGenesisBlockHash |}
              stateRoot;
          third_VoteSet := [] |} |}.

Definition genesisMetadata : SnapshotMetadata :=
  {| BlockTrios := [genesisTrio] |}.

Definition genesisFile : SnapshotFile :=
  {| file_metadata := Some genesisMetadata;
     file_records := map ReadOk stateRecords |}.

(** A later trio: blocks 0xA1, 0xA2 and 0xA3 at heights 5, 6 and 7, the
    third one carrying the votes of the three validators for the
    second. *)
Definition laterFirst : BlockHeader :=
  headerWithHash 0xA1 5 0xA0 noCertificate stateRoot.

Definition laterSecond : BlockHeader :=
  headerWithHash 0xA2 6 0xA1 {| cc_Votes := []; cc_BlockHash := 0xA1 |}
    stateRoot.

Definition laterThird : BlockHeader :=
  headerWithHash 0xA3 7 0xA2
    {| cc_Votes := [voteFor 0xA2 1; voteFor 0xA2 2; voteFor 0xA2 3];
       cc_BlockHash := 0xA2 |}
    stateRoot.

Definition laterTrio : SnapshotBlockTrio :=
  {| First := {| first_Header := laterFirst;
                 first_Proof := [(vcp_key, poolBytes)] |};
     Second := {| second_Header := laterSecond |};
     Third := {| third_Header := laterThird;
                 third_VoteSet :=
                   [voteFor 0xA3 1; voteFor 0xA3 2; voteFor 0xA3 3] |} |}.

Definition rotationMetadata : SnapshotMetadata :=
  {| BlockTrios := [genesisTrio; laterTrio] |}.

Definition rotationFile : SnapshotFile :=
  {| file_metadata := Some rotationMetadata;
     file_records := map ReadOk [start 6; poolLeaf; stop 6] |}.

(** The genesis snapshot with the lowest bit of the state hash of the
    tail's second block flipped. *)
Definition tamperedHeader : BlockHeader :=
  {| Height := Height genesisHeader; Parent := Parent genesisHeader;
     HCC := HCC genesisHeader;
     StateHash := Z.lxor (StateHash genesisHeader) (2 ^ 0);
     hdr_rest := hdr_rest genesisHeader |}.

Definition tamperedMetadata : SnapshotMetadata :=
  {| BlockTrios :=
       [{| First := First genesisTrio;
           Second := {| second_Header := tamperedHeader |};
           Third := Third genesisTrio |}] |}.

(** The root of a storage view nothing was set in. *)
Definition emptyRoot : Hash := root_of zeroHash [].

(** Two account leaves, then one storage scope that is empty.  In the
    first stream the first account declares the root of the scope and
    the second one does not; in the second stream it is the other way
    round. *)
Definition firstAccountMatches : list SnapshotTrieRecord :=
  [start 0; accountLeaf "a" emptyRoot; accountLeaf "b" 5;
   start 0; stop 0; stop 0].

Definition secondAccountMatches : list SnapshotTrieRecord :=
  [start 0; accountLeaf "a" 5; accountLeaf "b" emptyRoot;
   start 0; stop 0; stop 0].

(** One account with an empty storage scope, up to the record that
    closes the scope. *)
Definition accountScopeOpen : list SnapshotTrieRecord :=
  [start 0; accountLeaf "a" emptyRoot; start 0].

(** A view at height 2 inside a view at height 1, and the same four
    records in another order. *)
Definition nestedViews : list SnapshotTrieRecord :=
  [start 1; start 2; stop 2; stop 1].

Definition shuffledViews : list SnapshotTrieRecord :=
  [start 2; stop 1; stop 2; start 1].

(** The records of the genesis state with the leaf moved to the
    front. *)
Definition leafFirst : list SnapshotTrieRecord :=
  [poolLeaf; stop 0; start 0].

(** What [loadState] leaves once it has read [stateRecords]: the view it
    closed last, and the database with the nodes of that view. *)
Definition loadedView : StoreView :=
  {| sv_height := 0; sv_root := zeroHash;
     sv_leaves := [(vcp_key, poolBytes)] |}.

Definition loadedDB (readonly : bool) : MemDB :=
  {| db_nodes := [(stateRoot, [(vcp_key, poolBytes)])];
     db_kv := [];
     db_readonly := readonly |}.

(** The extended block written for the second block of the genesis
    snapshot. *)
Definition genesisExt : ExtendedBlock :=
  {| ext_Block := genesisHeader;
     ext_Status := BlockStatusDirectlyFinalized;
     ext_Children := [];
     ext_HasValidatorUpdate := false |}.

(** The world-state view of [accountScopeOpen] once the account leaf
    is set in it. *)
Definition accountView : StoreView :=
  {| sv_height := 0; sv_root := zeroHash;
     sv_leaves :=
       [(accountPrefix ++ bytes_of "a", be_bytes 32 emptyRoot)] |}.

(** The validator set the pool of [poolBytes] selects. *)
Definition validators : ValidatorSet :=
  [ {| val_ID := 1; val_Stake := 10 |}; {| val_ID := 2; val_Stake := 10 |};
    {| val_ID := 3; val_Stake := 10 |} ].

(** The loader once it has read the first [n] records of a stream that
    begins like [firstAccountMatches], with [rootA] and [rootB] the roots
    the two accounts declare: before the storage scope is opened
    ([inner = false]) or right after ([inner = true]). *)
Definition twoAccountsView (rootA rootB : Hash) : StoreView :=
  {| sv_height := 0; sv_root := zeroHash;
     sv_leaves :=
       [(accountPrefix ++ bytes_of "a", be_bytes 32 rootA);
        (accountPrefix ++ bytes_of "b", be_bytes 32 rootB)] |}.

Definition twoAccountsState (rootA rootB : Hash) (inner : bool)
  : LoaderState (C := sample) :=
  {| ls_db := emptyDB;
     ls_svStack :=
       twoAccountsView rootA rootB
       :: (if inner then [NewStoreView 0 zeroHash] else []);
     ls_sv := None;
     ls_hash := zeroHash;
     ls_account := Some {| Root := rootA |} |}.

End Scenario.

(* ================================================================= *)
(** ** Reading a record stream *)

Definition isStart (record : SnapshotTrieRecord) : bool :=
  bytes_Equal (K record) [SVStart].

Definition isEnd (record : SnapshotTrieRecord) : bool :=
  negb (isStart record) && bytes_Equal (K record) [SVEnd].

(** A leaf whose key begins with [ls/a/]. *)
Definition isAccountLeaf (record : SnapshotTrieRecord) : bool :=
  negb (isStart record) && negb (isEnd record)
  && HasPrefix (K record) accountPrefix.

(** The SV_START and SV_END records of a stream are well nested when
    every SV_END closes a scope that is open and no scope is left open
    at the end; [depth] scopes are open before [records]. *)
Fixpoint nestedFrom (depth : nat) (records : list SnapshotTrieRecord)
  : bool :=
  match records with
  | [] => Nat.eqb depth 0
  | record :: rest =>
      if isStart record then nestedFrom (S depth) rest
      else if isEnd record then
        match depth with
        | O => false
        | S depth' => nestedFrom depth' rest
        end
      else nestedFrom depth rest
  end.

Definition wellNested (records : list SnapshotTrieRecord) : bool :=
  nestedFrom 0 records.

(** The records read since the last SV_END (all of them when there is
    none). *)
Definition afterLastEnd (records : list SnapshotTrieRecord)
  : list SnapshotTrieRecord :=
  fold_left (fun acc record => if isEnd record then [] else acc ++ [record])
    records [].

Definition firstAccountLeaf (records : list SnapshotTrieRecord)
  : option SnapshotTrieRecord :=
  find isAccountLeaf records.

Definition mostRecentAccountLeaf (records : list SnapshotTrieRecord)
  : option SnapshotTrieRecord :=
  find isAccountLeaf (rev records).

(** The errors [loadState] returns on a stream every record of which
    can be read. *)
Definition streamErrors : list Error :=
  [UnmatchedEnd; UnclosedView; LeafOutsideView; HeightMismatch;
   StorageRootMismatch; AccountDecodeFailed].

Section Stream.

Context {C : Collaborators}.

(** The iterations of the loop of [loadState] over [records], without
    the test it makes at the end of the file. *)
Fixpoint loadRecords (st : LoaderState) (records : list SnapshotTrieRecord)
  : Outcome LoaderState :=
  match records with
  | [] => Ok st
  | record :: rest => st' <- loadRecord st record ;; loadRecords st' rest
  end.

(** The state [loadState] has reached once it has read [records]. *)
Definition stateAfter (records : list SnapshotTrieRecord) (db : DB)
  : Outcome LoaderState :=
  loadRecords (initialState db) records.

(** What [validateVotes] asks of one vote. *)
Definition voteAccepted (validatorSet : ValidatorSet) (block : BlockHeader)
  (vote : Vote) : Prop :=
  Vote_Validate vote = true
  /\ vote_Block vote = BlockHeader_Hash block
  /\ GetValidator validatorSet (vote_ID vote) <> None.

End Stream.

(* ================================================================= *)
(** ** Scopes and links, as the checks see them *)

(** A record that is neither SV_START nor SV_END. *)
Definition isLeaf (record : SnapshotTrieRecord) : bool :=
  negb (isStart record) && negb (isEnd record).

(** The key and value pairs of a run of records. *)
Definition leafPairs (records : list SnapshotTrieRecord)
  : list (Bytes * Bytes) :=
  map (fun record => (K record, V record)) records.

Section Shapes.

Context {C : Collaborators}.

(** The scopes of a stream are closed in order when every SV_END
    carries the height of the innermost scope still open, every leaf
    falls inside a scope and nothing is left open at the end; [opened]
    lists the heights of the scopes open before [records], innermost
    first. *)
Fixpoint scopesClosed (opened : list Z) (records : list SnapshotTrieRecord)
  : bool :=
  match records with
  | [] => match opened with [] => true | _ :: _ => false end
  | record :: rest =>
      if isStart record then
        scopesClosed (Bytestoi (V record) :: opened) rest
      else if isEnd record then
        match opened with
        | [] => false
        | height :: outer =>
            (Bytestoi (V record) =? height) && scopesClosed outer rest
        end
      else
        match opened with
        | [] => false
        | _ :: _ => scopesClosed opened rest
        end
  end.

(** The parent and HCC links inside one trio. *)
Definition trioLinked (blockTrio : SnapshotBlockTrio) : Prop :=
  let first := first_Header (First blockTrio) in
  let second := second_Header (Second blockTrio) in
  let third := third_Header (Third blockTrio) in
  Parent second = BlockHeader_Hash first
  /\ Parent third = BlockHeader_Hash second
  /\ cc_BlockHash (HCC second) = BlockHeader_Hash first
  /\ cc_BlockHash (HCC third) = BlockHeader_Hash second.

End Shapes.

(* ================================================================= *)
(** ** str2hex2bytes (integration/tools/inspect_data) *)

(** The value [strconv.ParseUint] gives a character as a digit. *)
Definition digitValue (c : byte) : option Z :=
  let n := Z.of_N (Byte.to_N c) in
  if (48 <=? n) && (n <=? 57) then Some (n - 48)
  else if (97 <=? n) && (n <=? 122) then Some (n - 97 + 10)
  else if (65 <=? n) && (n <=? 90) then Some (n - 65 + 10)
  else None.

Definition maxUint64 : Z := 2 ^ 64 - 1.

(** The loop of [strconv.ParseUint] over the characters, [n] being the
    number read so far; the boolean is [true] when an error is
    returned. *)
Fixpoint parseDigits (s : Bytes) (base n : Z) : Z * bool :=
  match s with
  | [] => (n, false)
  | c :: rest =>
      match digitValue c with
      | None => (0, true)
      | Some d =>
          if base <=? d then (0, true)
          else if maxUint64 / base + 1 <=? n then (maxUint64, true)
          else
            let n1 := n * base + d in
            if maxUint64 <? n1 then (maxUint64, true)
            else parseDigits rest base n1
      end
  end.

(** [strconv.ParseUint(s, base, 64)] for a base from 2 to 36. *)
Definition ParseUint (s : Bytes) (base : Z) : Z * bool :=
  match s with
  | [] => (0, true)
  | _ :: _ => parseDigits s base 0
  end.

Definition TrimPrefix (s prefix : Bytes) : Bytes :=
  if HasPrefix s prefix then skipn (List.length prefix) s else s.

(** The loop of [str2hex2bytes]: [str[:2]] panics on a string of one
    character; the error of [ParseUint] is dropped. *)
Fixpoint str2hex2bytes_loop (str : Bytes) (bytes : Bytes) : Outcome Bytes :=
  match str with
  | [] => Ok bytes
  | [_] => Panic IndexOutOfRange
  | a :: b :: rest =>
      let i := fst (ParseUint [a; b] 16) in
      str2hex2bytes_loop rest (bytes ++ [byte_of_Z i])
  end.

Definition str2hex2bytes (str : Bytes) : Outcome Bytes :=
  let str :=
    if HasPrefix str (bytes_of "0x") then TrimPrefix str (bytes_of "0x")
    else str in
  str2hex2bytes_loop str [].

(** The two lower-case hexadecimal digits of a byte, and the
    hexadecimal spelling of a byte string. *)
Definition hexOf (b : byte) : Bytes :=
  let n := Z.of_N (Byte.to_N b) in [digit (n / 16); digit (n mod 16)].

Definition hexEncode (bs : Bytes) : Bytes := flat_map hexOf bs.

Definition isHexDigit (c : byte) : bool :=
  match digitValue c with
  | Some d => d <? 16
  | None => false
  end.

(* ================================================================= *)
(** ** More sample data *)

Module Cases.

Import Sample.

(** The database once the two empty views of [Scenario.nestedViews] are
    saved. *)
Definition nestedDB : MemDB :=
  {| db_nodes := [(zeroHash, []); (zeroHash, [])];
     db_kv := [];
     db_readonly := false |}.

(** The database once one empty view is saved. *)
Definition innerDB : MemDB :=
  {| db_nodes := [(zeroHash, [])]; db_kv := []; db_readonly := false |}.

(** The view [loadState] returns for [Scenario.rotationFile]. *)
Definition rotationView : StoreView :=
  {| sv_height := 6; sv_root := zeroHash;
     sv_leaves := [(vcp_key, Scenario.poolBytes)] |}.

(** A third trio: blocks 0xB1, 0xB2 and 0xB3 at heights 8, 9 and 10,
    with the votes of the three validators for the second. *)
Definition furtherTrio : SnapshotBlockTrio :=
  {| First :=
       {| first_Header :=
            Scenario.headerWithHash 0xB1 8 0xB0 Scenario.noCertificate
              Scenario.stateRoot;
          first_Proof := [(vcp_key, Scenario.poolBytes)] |};
     Second :=
       {| second_Header :=
            Scenario.headerWithHash 0xB2 9 0xB1
              {| cc_Votes := []; cc_BlockHash := 0xB1 |}
              Scenario.stateRoot |};
     Third :=
       {| third_Header :=
            Scenario.headerWithHash 0xB3 10 0xB2
              {| cc_Votes := [Scenario.voteFor 0xB2 1; Scenario.voteFor 0xB2 2;
                              Scenario.voteFor 0xB2 3];
                 cc_BlockHash := 0xB2 |}
              Scenario.stateRoot;
          third_VoteSet := [] |} |}.

Definition threeTrioMetadata : SnapshotMetadata :=
  {| BlockTrios := [Scenario.genesisTrio; Scenario.laterTrio; furtherTrio] |}.

(** The view of a state stream at height 9 with the pool leaf. *)
Definition furtherView : StoreView :=
  {| sv_height := 9; sv_root := zeroHash;
     sv_leaves := [(vcp_key, Scenario.poolBytes)] |}.

(** A snapshot file whose metadata lists no trio. *)
Definition noTrioFile : SnapshotFile :=
  {| file_metadata := Some {| BlockTrios := [] |};
     file_records := map ReadOk Scenario.stateRecords |}.

End Cases.

(* ================================================================= *)
(** ** Properties of the stack *)

Lemma bytes_Equal_eq (a b : Bytes) : bytes_Equal a b = true <-> a = b.
Proof.
  revert b; induction a as [|x a IH]; intros [|y b]; simpl;
    try (split; [discriminate | congruence]); [tauto|].
  rewrite andb_true_iff, IH.
  destruct (Byte.eqb x y) eqn:E.
  - apply Byte.byte_dec_bl in E. subst. split; [intros [_ ->]; reflexivity|].
    intro H; inversion H; auto.
  - split; [intros [H _]; discriminate|].
    intro H; inversion H; subst.
    rewrite (Byte.byte_dec_lb eq_refl) in E. discriminate.
Qed.

Lemma isEnd_not_isStart (record : SnapshotTrieRecord) :
  isEnd record = true -> isStart record = false.
Proof.
  unfold isEnd. destruct (isStart record); simpl; [discriminate | reflexivity].
Qed.

Lemma peek_nil_iff (s : SVStack) : peek s = None <-> s = [].
Proof.
  unfold peek. destruct s as [|x s]; [tauto|].
  simpl List.length. split; [|discriminate].
  intro H. apply nth_error_None in H. simpl in H. lia.
Qed.

Lemma peek_length (s : SVStack) : peek s = None <-> List.length s = 0%nat.
Proof.
  rewrite peek_nil_iff. destruct s; simpl; split; congruence.
Qed.

Lemma push_length (s : SVStack) (sv : StoreView) :
  List.length (push s sv) = S (List.length s).
Proof. unfold push. rewrite length_app. simpl. lia. Qed.

Lemma pop_push (s : SVStack) (sv : StoreView) : pop (push s sv) = (s, Some sv).
Proof.
  unfold pop. rewrite push_length. unfold push.
  rewrite firstn_app, firstn_all, Nat.sub_diag. simpl. rewrite app_nil_r.
  rewrite nth_error_app2, Nat.sub_diag by lia. reflexivity.
Qed.

Lemma peek_push (s : SVStack) (sv : StoreView) : peek (push s sv) = Some sv.
Proof.
  unfold peek. rewrite push_length. unfold push.
  rewrite nth_error_app2, Nat.sub_diag by lia. reflexivity.
Qed.

Lemma pop_None (s : SVStack) :
  snd (pop s) = None <-> List.length s = 0%nat.
Proof.
  unfold pop. destruct (List.length s) eqn:E; simpl; [tauto|].
  split; [|discriminate]. intro H. apply nth_error_None in H. lia.
Qed.

Lemma pop_Some_length (s s' : SVStack) (sv : StoreView) :
  pop s = (s', Some sv) -> List.length s = S (List.length s').
Proof.
  unfold pop. destruct (List.length s) eqn:E; [discriminate|].
  intro H. inversion H; subst. rewrite length_firstn. lia.
Qed.

Lemma update_top_length (s : SVStack) (sv : StoreView) :
  List.length (update_top s sv) = List.length s.
Proof.
  unfold update_top. destruct (List.length s) eqn:E; [exact E|].
  rewrite length_app, length_firstn. simpl. lia.
Qed.

(* ================================================================= *)
(** ** Properties of the loop of loadState *)

Section LoaderFacts.

Context {C : Collaborators}.

Lemma loadRecords_app (xs ys : list SnapshotTrieRecord) (st : LoaderState) :
  loadRecords st (xs ++ ys) = (st' <- loadRecords st xs ;; loadRecords st' ys).
Proof.
  revert st; induction xs as [|x xs IH]; intro st; simpl; [reflexivity|].
  destruct (loadRecord st x); simpl; auto.
Qed.

Lemma loadLoop_records (records : list SnapshotTrieRecord)
  (file : list ReadResult) (st : LoaderState) :
  loadLoop (map ReadOk records ++ file) st
  = (st' <- loadRecords st records ;; loadLoop file st').
Proof.
  revert st; induction records as [|x xs IH]; intro st; simpl; [reflexivity|].
  destruct (loadRecord st x); simpl; auto.
Qed.

(** How each branch of the loop moves the stack and the pending
    account. *)
Lemma loadStart_Ok (st st' : LoaderState) (record : SnapshotTrieRecord) :
  loadStart st record = Ok st' ->
  List.length (ls_svStack st') = S (List.length (ls_svStack st))
  /\ ls_account st' = ls_account st.
Proof.
  unfold loadStart. intro H. inversion H; subst; simpl.
  split; [apply push_length | reflexivity].
Qed.

Lemma loadEnd_cases (st : LoaderState) (record : SnapshotTrieRecord) :
  match loadEnd st record with
  | Ok st' =>
      List.length (ls_svStack st) = S (List.length (ls_svStack st'))
      /\ ls_account st' = None
  | Err e => e = UnmatchedEnd \/ e = HeightMismatch \/ e = StorageRootMismatch
  | Panic p => p = NilDereference
  end.
Proof.
  unfold loadEnd.
  destruct (pop (ls_svStack st)) as [svStack [sv|]] eqn:Hpop; [|auto].
  apply pop_Some_length in Hpop.
  destruct (negb (Bytestoi (V record) =? StoreView_Height sv)); [auto|].
  destruct (StoreView_Save sv (ls_db st)) as [hash db].
  destruct (peek svStack) as [outer|]; [|simpl; auto].
  destruct (Bytestoi (V record) =? StoreView_Height outer); [|simpl; auto].
  destruct (ls_account st) as [account|]; [|reflexivity].
  destruct (negb (Root account =? hash)); simpl; auto.
Qed.

Lemma loadLeaf_cases (st : LoaderState) (record : SnapshotTrieRecord) :
  match loadLeaf st record with
  | Ok st' =>
      List.length (ls_svStack st') = List.length (ls_svStack st)
      /\ ls_account st' =
           match ls_account st with
           | Some account => Some account
           | None =>
               if HasPrefix (K record) accountPrefix
               then Account_FromBytes (V record) else None
           end
      /\ (ls_account st = None -> HasPrefix (K record) accountPrefix = true ->
          Account_FromBytes (V record) <> None)
  | Err e => e = LeafOutsideView \/ e = AccountDecodeFailed
  | Panic _ => False
  end.
Proof.
  unfold loadLeaf.
  destruct (peek (ls_svStack st)) as [sv|]; [|auto].
  destruct (ls_account st) as [account|]; simpl.
  - repeat split; [apply update_top_length | discriminate].
  - destruct (HasPrefix (K record) accountPrefix).
    + destruct (Account_FromBytes (V record)); simpl; auto.
      repeat split; [apply update_top_length | discriminate].
    + simpl. repeat split; [apply update_top_length | discriminate].
Qed.

Lemma loadRecord_kinds (st : LoaderState) (record : SnapshotTrieRecord) :
  loadRecord st record =
    if isStart record then loadStart st record
    else if isEnd record then loadEnd st record
    else loadLeaf st record.
Proof.
  unfold loadRecord, isEnd, isStart.
  destruct (bytes_Equal (K record) [SVStart]); reflexivity.
Qed.

(** A stream that is not well nested is not loaded. *)
Lemma loadLoop_not_nested (records : list SnapshotTrieRecord) :
  forall st : LoaderState,
    nestedFrom (List.length (ls_svStack st)) records = false ->
    match loadLoop (map ReadOk records) st with
    | Ok _ => False
    | Err e => In e streamErrors
    | Panic _ => True
    end.
Proof.
  induction records as [|record rest IH]; intros st Hn.
  - simpl in *. destruct (peek (ls_svStack st)) eqn:Hp; simpl; [tauto|].
    apply peek_length in Hp. rewrite Hp in Hn. discriminate.
  - cbn [map loadLoop nestedFrom] in *. rewrite loadRecord_kinds.
    destruct (isStart record).
    + destruct (loadStart st record) as [st'|e|p] eqn:Hs; try discriminate.
      apply loadStart_Ok in Hs. destruct Hs as [Hl _].
      simpl. apply IH. rewrite Hl. exact Hn.
    + destruct (isEnd record).
      * pose proof (loadEnd_cases st record) as Hc.
        destruct (loadEnd st record) as [st'|e|p]; simpl.
        -- destruct Hc as [Hl _]. apply IH. rewrite Hl in Hn. exact Hn.
        -- unfold streamErrors. simpl.
           destruct Hc as [ -> | [ -> | -> ] ]; tauto.
        -- exact I.
      * pose proof (loadLeaf_cases st record) as Hc.
        destruct (loadLeaf st record) as [st'|e|p]; simpl.
        -- destruct Hc as [Hl _]. apply IH. rewrite Hl. exact Hn.
        -- unfold streamErrors. simpl. destruct Hc as [ -> | -> ]; tauto.
        -- exact I.
Qed.

Lemma afterLastEnd_snoc (records : list SnapshotTrieRecord)
  (record : SnapshotTrieRecord) :
  afterLastEnd (records ++ [record]) =
    if isEnd record then [] else afterLastEnd records ++ [record].
Proof. unfold afterLastEnd. rewrite fold_left_app. reflexivity. Qed.

Lemma firstAccountLeaf_snoc (records : list SnapshotTrieRecord)
  (record : SnapshotTrieRecord) :
  firstAccountLeaf (records ++ [record]) =
    match firstAccountLeaf records with
    | Some l => Some l
    | None => if isAccountLeaf record then Some record else None
    end.
Proof.
  unfold firstAccountLeaf.
  induction records as [|x xs IH]; simpl; [reflexivity|].
  destruct (isAccountLeaf x); auto.
Qed.

(** The pending account is the one decoded from the first account leaf
    read since the last SV_END. *)
Lemma pending_account (records : list SnapshotTrieRecord) :
  forall (db : DB) (st : LoaderState),
    stateAfter records db = Ok st ->
    match firstAccountLeaf (afterLastEnd records) with
    | Some l =>
        exists account,
          Account_FromBytes (V l) = Some account
          /\ ls_account st = Some account
    | None => ls_account st = None
    end.
Proof.
  unfold stateAfter.
  induction records as [|record records IH] using rev_ind; intros db st H.
  - inversion H; subst. reflexivity.
  - rewrite loadRecords_app in H.
    destruct (loadRecords (initialState db) records) as [st0| |] eqn:H0;
      try discriminate.
    specialize (IH db st0 H0).
    simpl in H. destruct (loadRecord st0 record) as [st1| |] eqn:H1;
      try discriminate.
    inversion H; subst st1; clear H.
    rewrite afterLastEnd_snoc. rewrite loadRecord_kinds in H1.
    destruct (isStart record) eqn:Es.
    + apply loadStart_Ok in H1. destruct H1 as [_ Ha].
      assert (isEnd record = false) as ->
        by (unfold isEnd; rewrite Es; reflexivity).
      rewrite firstAccountLeaf_snoc.
      assert (isAccountLeaf record = false) as ->
        by (unfold isAccountLeaf; rewrite Es; reflexivity).
      rewrite Ha. destruct (firstAccountLeaf (afterLastEnd records)); auto.
    + destruct (isEnd record) eqn:Ee.
      * pose proof (loadEnd_cases st0 record) as Hc. rewrite H1 in Hc.
        destruct Hc as [_ Ha]. simpl. exact Ha.
      * pose proof (loadLeaf_cases st0 record) as Hc. rewrite H1 in Hc.
        destruct Hc as [_ [Ha Hd]]. rewrite firstAccountLeaf_snoc.
        destruct (firstAccountLeaf (afterLastEnd records)) as [l|] eqn:El.
        -- destruct IH as [account [Hl Hs]]. exists account.
           rewrite Ha, Hs. auto.
        -- rewrite IH in Ha. specialize (Hd IH).
           unfold isAccountLeaf. rewrite Es, Ee. simpl.
           destruct (HasPrefix (K record) accountPrefix).
           ++ destruct (Account_FromBytes (V record)) as [account|];
                [|exfalso; apply Hd; reflexivity].
              exists account. auto.
           ++ exact Ha.
Qed.

End LoaderFacts.

(* ================================================================= *)
(** ** strconv.FormatUint on the bases the loader meets *)

Example FormatUint_decimal :
  FormatUint 1234 10 = Ok (bytes_of "1234")
  /\ FormatUint 0 10 = Ok (bytes_of "0")
  /\ FormatUint 255 16 = Ok (bytes_of "ff")
  /\ FormatUint 35 36 = Ok (bytes_of "z").
Proof. repeat split; reflexivity. Qed.

Lemma FormatUint_base_64 (i : Z) : FormatUint i 64 = Panic IllegalBase.
Proof. reflexivity. Qed.

(* ================================================================= *)
(** ** validateVotes *)

Section Votes.

Context {C : Collaborators}.

Lemma validateEachVote_Ok (validatorSet : ValidatorSet) (block : BlockHeader)
  (votes : list Vote) :
  validateEachVote validatorSet block votes = Ok tt
  <-> Forall (voteAccepted validatorSet block) votes.
Proof.
  induction votes as [|vote rest IH]; simpl.
  - split; [constructor | reflexivity].
  - unfold voteAccepted at 1.
    destruct (Vote_Validate vote) eqn:Ev; simpl.
    2:{ split; [discriminate|]. intro H. inversion H; subst.
        unfold voteAccepted in *. intuition congruence. }
    destruct (vote_Block vote =? BlockHeader_Hash block) eqn:Eb; simpl.
    2:{ split; [discriminate|]. intro H. inversion H; subst.
        unfold voteAccepted in *. apply Z.eqb_neq in Eb. intuition congruence. }
    apply Z.eqb_eq in Eb.
    destruct (GetValidator validatorSet (vote_ID vote)) eqn:Eg.
    + rewrite IH. split.
      * intro H. constructor; [|exact H].
        unfold voteAccepted. rewrite Eg. repeat split; auto. discriminate.
      * intro H. inversion H; auto.
    + split; [discriminate|]. intro H. inversion H; subst.
      unfold voteAccepted in *. intuition congruence.
Qed.

Lemma validateEachVote_cases (validatorSet : ValidatorSet)
  (block : BlockHeader) (votes : list Vote) :
  validateEachVote validatorSet block votes = Ok tt
  \/ exists e, validateEachVote validatorSet block votes = Err e
               /\ In e [VoteNotValid; VoteWrongBlock; ValidatorNotFound].
Proof.
  induction votes as [|vote rest IH]; simpl; [auto|].
  destruct (Vote_Validate vote); simpl; [|right; eexists; split; eauto].
  destruct (vote_Block vote =? BlockHeader_Hash block); simpl;
    [|right; eexists; split; eauto].
  destruct (GetValidator validatorSet (vote_ID vote));
    [exact IH | right; eexists; split; eauto 6].
Qed.

End Votes.

(** C4.  [validateVotes] succeeds exactly when the validator set has a
    majority in the vote set and every vote of the set verifies, names
    the hash of the block and has a voter id that resolves in the
    validator set; otherwise it returns an error, one of the four of its
    body. *)
Theorem validateVotes_succeeds_iff :
  forall (C : Collaborators) (validatorSet : ValidatorSet)
    (block : BlockHeader) (voteSet : VoteSet),
    (validateVotes validatorSet block voteSet = Ok tt
     <-> HasMajority validatorSet voteSet = true
         /\ Forall (fun vote =>
                      Vote_Validate vote = true
                      /\ vote_Block vote = BlockHeader_Hash block
                      /\ GetValidator validatorSet (vote_ID vote) <> None)
              voteSet)
    /\ (validateVotes validatorSet block voteSet = Ok tt
        \/ exists e,
             validateVotes validatorSet block voteSet = Err e
             /\ In e [NoMajority; VoteNotValid; VoteWrongBlock;
                      ValidatorNotFound]).
Proof.
  intros C validatorSet block voteSet. unfold validateVotes. split.
  - destruct (HasMajority validatorSet voteSet); simpl.
    + rewrite validateEachVote_Ok. unfold voteAccepted. tauto.
    + split; [discriminate | intros [H _]; discriminate].
  - destruct (HasMajority validatorSet voteSet); simpl.
    + destruct (validateEachVote_cases validatorSet block voteSet)
        as [H|[e [H Hin]]]; [left; exact H|].
      right. exists e. split; [exact H|]. simpl in *. tauto.
    + right. exists NoMajority. simpl. auto.
Qed.

(* ================================================================= *)
(** ** checkSnapshot *)

Lemma lxor_bit_differs (h k : Z) : 0 <= k -> Z.lxor h (2 ^ k) <> h.
Proof.
  intros Hk Heq.
  assert (Hb : Z.testbit (Z.lxor h (2 ^ k)) k = Z.testbit h k)
    by (rewrite Heq; reflexivity).
  rewrite Z.lxor_spec, Z.pow2_bits_true in Hb by exact Hk.
  destruct (Z.testbit h k); discriminate.
Qed.

(** C3.  With [tail] the last trio of the metadata: [checkSnapshot]
    succeeds only if the root hash handed over by [loadState] is the
    state hash of the second block of [tail]; when the two differ, as
    they do once a bit of that state hash is flipped, [checkSnapshot]
    returns StateHashMismatch whatever the trios hold, and the load
    fails with that error. *)
Theorem checkSnapshot_state_hash :
  forall (C : Collaborators) (sv : option StoreView) (hash : Hash)
    (metadata : SnapshotMetadata) (db : DB) (tail : SnapshotBlockTrio),
    tailTrio metadata = Ok tail ->
    (checkSnapshot sv hash metadata db = Ok tt ->
     hash = StateHash (second_Header (Second tail)))
    /\ (hash <> StateHash (second_Header (Second tail)) ->
        checkSnapshot sv hash metadata db = Err StateHashMismatch)
    /\ (forall k : Z,
          0 <= k ->
          StateHash (second_Header (Second tail)) = Z.lxor hash (2 ^ k) ->
          checkSnapshot sv hash metadata db = Err StateHashMismatch)
    /\ (forall (f : SnapshotFile) (db0 : DB),
          file_metadata f = Some metadata ->
          loadState (file_records f) db0 = Ok (sv, hash, db) ->
          hash <> StateHash (second_Header (Second tail)) ->
          LoadSnapshot (Some f) db0
          = Err (ValidationFailed StateHashMismatch)).
Proof.
  intros C sv hash metadata db tail Htail.
  assert (Hne : hash <> StateHash (second_Header (Second tail)) ->
                checkSnapshot sv hash metadata db = Err StateHashMismatch).
  { intro Hd. unfold checkSnapshot. rewrite Htail. simpl.
    destruct (StateHash (second_Header (Second tail)) =? hash) eqn:E;
      [apply Z.eqb_eq in E; congruence | reflexivity]. }
  repeat split.
  - intro Hok.
    destruct (Z.eq_dec hash (StateHash (second_Header (Second tail))))
      as [E|E]; [exact E|].
    rewrite (Hne E) in Hok. discriminate.
  - exact Hne.
  - intros k Hk Hflip. apply Hne. rewrite Hflip.
    intro E. symmetry in E. revert E. apply lxor_bit_differs. exact Hk.
  - intros f db0 Hm Hl Hd. unfold LoadSnapshot, loadSnapshot.
    rewrite Hm, Hl. simpl. rewrite (Hne Hd). reflexivity.
Qed.

(** The genesis snapshot with bit 0 of the tail state hash flipped is
    refused with StateHashMismatch. *)
Lemma checkSnapshot_state_hash_witness :
  tailTrio Scenario.tamperedMetadata
  = Ok {| First := First Scenario.genesisTrio;
          Second := {| second_Header := Scenario.tamperedHeader |};
          Third := Third Scenario.genesisTrio |}
  /\ loadState (C := Sample.sample)
       (file_records Scenario.genesisFile) Sample.emptyDB
     = Ok (Some Scenario.loadedView, Scenario.stateRoot,
           Scenario.loadedDB false)
  /\ checkSnapshot (C := Sample.sample) (Some Scenario.loadedView)
       Scenario.stateRoot Scenario.tamperedMetadata (Scenario.loadedDB false)
     = Err StateHashMismatch.
Proof.
  split; [reflexivity|]. split; [vm_compute; reflexivity|].
  refine (proj1 (proj2 (proj2
    (checkSnapshot_state_hash Sample.sample (Some Scenario.loadedView)
       Scenario.stateRoot Scenario.tamperedMetadata (Scenario.loadedDB false)
       _ eq_refl))) 0 _ _).
  - lia.
  - reflexivity.
Defined.

Section TailVotes.

Context {C : Collaborators}.

Lemma tailTrio_snoc (trios : list SnapshotBlockTrio)
  (trio : SnapshotBlockTrio) :
  tailTrio {| BlockTrios := trios ++ [trio] |} = Ok trio.
Proof.
  unfold tailTrio. simpl. rewrite length_app. simpl.
  replace (List.length trios + 1)%nat with (S (List.length trios)) by lia.
  rewrite nth_error_app2, Nat.sub_diag by lia. reflexivity.
Qed.

(** The loop over the trios reads the headers, the proof of the first
    block and the votes inside the header of the third block, never the
    vote set that comes with the third block. *)
Lemma checkTrios_ignores_third_votes (trios : list SnapshotBlockTrio)
  (trio : SnapshotBlockTrio) (votes : VoteSet) :
  forall (idx : nat) (proven : option ValidatorSet) (db : DB),
    checkTrios idx
      (trios ++ [ {| First := First trio; Second := Second trio;
                     Third := {| third_Header := third_Header (Third trio);
                                 third_VoteSet := votes |} |} ])
      proven db
    = checkTrios idx (trios ++ [trio]) proven db.
Proof.
  induction trios as [|t trios IH]; intros idx proven db.
  - destruct idx; reflexivity.
  - simpl. destruct idx; simpl.
    + destruct (wrap BadGenesis
                  (validateGenesisBlock (second_Header (Second t)) db));
        simpl; auto.
    + destruct (checkLinkedTrio proven t); simpl; auto.
Qed.

(** Whatever votes come with the third block of the tail trio,
    [checkSnapshot] gives the same result. *)
Lemma checkSnapshot_ignores_tail_votes (sv : option StoreView) (hash : Hash)
  (trios : list SnapshotBlockTrio) (trio : SnapshotBlockTrio)
  (votes : VoteSet) (db : DB) :
  checkSnapshot sv hash
    {| BlockTrios :=
         trios ++ [ {| First := First trio; Second := Second trio;
                       Third := {| third_Header := third_Header (Third trio);
                                   third_VoteSet := votes |} |} ] |}
    db
  = checkSnapshot sv hash {| BlockTrios := trios ++ [trio] |} db.
Proof.
  unfold checkSnapshot. rewrite !tailTrio_snoc. simpl.
  destruct (negb (StateHash (second_Header (Second trio)) =? hash));
    [reflexivity|].
  rewrite checkTrios_ignores_third_votes.
  destruct (checkTrios 0 (trios ++ [trio]) None db) as [[proven|]| |];
    reflexivity.
Qed.

End TailVotes.

(** C1 (code defect).  On the genesis snapshot, whose tail's third block
    nobody voted for, [validateVotes] on the votes of that block against
    the proven validator set returns an error, and [checkSnapshot] and
    the whole load succeed all the same: what that call returns is
    dropped. *)
Theorem checkSnapshot_drops_tail_vote_failure :
  loadState (C := Sample.sample)
    (file_records Scenario.genesisFile) Sample.emptyDB
  = Ok (Some Scenario.loadedView, Scenario.stateRoot, Scenario.loadedDB false)
  /\ tailTrio Scenario.genesisMetadata = Ok Scenario.genesisTrio
  /\ checkTrios (C := Sample.sample) 0
       (BlockTrios Scenario.genesisMetadata) None (Scenario.loadedDB false)
     = Ok (Some Scenario.validators)
  /\ validateVotes (C := Sample.sample) Scenario.validators
       (third_Header (Third Scenario.genesisTrio))
       (third_VoteSet (Third Scenario.genesisTrio))
     = Err NoMajority
  /\ checkSnapshot (C := Sample.sample) (Some Scenario.loadedView)
       Scenario.stateRoot Scenario.genesisMetadata (Scenario.loadedDB false)
     = Ok tt
  /\ succeeded (LoadSnapshot (C := Sample.sample)
                  (Some Scenario.genesisFile) Sample.emptyDB) = true.
Proof.
  split; [vm_compute; reflexivity|].
  split; [reflexivity|].
  split; [vm_compute; reflexivity|].
  split; [vm_compute; reflexivity|].
  split; vm_compute; reflexivity.
Qed.

(* ================================================================= *)
(** ** loadSnapshot *)

(** C2 (code defect).  A snapshot of two trios or more that loads and
    passes [checkSnapshot] is never loaded with success: the key of the
    first trio is asked of [strconv.FormatUint] in base 64, which
    panics, so no "btrio/" key in decimal is ever written. *)
Theorem loadSnapshot_panics_before_tail :
  forall (C : Collaborators) (f : SnapshotFile) (db : DB)
    (metadata : SnapshotMetadata) (t1 t2 : SnapshotBlockTrio)
    (rest : list SnapshotBlockTrio)
    (sv : option StoreView) (hash : Hash) (db1 : DB),
    file_metadata f = Some metadata ->
    BlockTrios metadata = t1 :: t2 :: rest ->
    loadState (file_records f) db = Ok (sv, hash, db1) ->
    checkSnapshot sv hash metadata db1 = Ok tt ->
    LoadSnapshot (Some f) db = Panic IllegalBase.
Proof.
  intros C f db metadata t1 t2 rest sv hash db1 Hm Ht Hl Hc.
  unfold LoadSnapshot, loadSnapshot. rewrite Hm, Hl. simpl.
  rewrite Hc, Ht. simpl wrap. cbn [bind List.length saveBlockTrios].
  replace (Z.of_nat 0 <? Z.of_nat (S (S (List.length rest))) - 1) with true
    by (symmetry; apply Z.ltb_lt; lia).
  rewrite FormatUint_base_64. reflexivity.
Qed.

(** The two-trio snapshot passes every check and panics at the first
    trio key. *)
Lemma loadSnapshot_panics_before_tail_witness :
  LoadSnapshot (C := Sample.sample) (Some Scenario.rotationFile)
    Sample.emptyDB
  = Panic IllegalBase.
Proof.
  refine (loadSnapshot_panics_before_tail Sample.sample
            Scenario.rotationFile Sample.emptyDB Scenario.rotationMetadata
            Scenario.genesisTrio Scenario.laterTrio []
            (Some {| sv_height := 6; sv_root := zeroHash;
                     sv_leaves := [(Sample.vcp_key, Scenario.poolBytes)] |})
            Scenario.stateRoot (Scenario.loadedDB false) _ _ _ _).
  - reflexivity.
  - reflexivity.
  - vm_compute; reflexivity.
  - vm_compute; reflexivity.
Defined.






(* ================================================================= *)
(** ** loadState *)

(** C10 (code defect).  A scope opened inside a scope of the same
    height with no account leaf before it makes [loadState] panic when
    the inner scope is closed: [account] is nil where [account.Root] is
    read.  The three records carry any one height value. *)
Theorem loadState_panics_without_account :
  forall (C : Collaborators) (height : Bytes) (db : DB),
    loadState
      (map ReadOk
         [ {| K := [SVStart]; V := height |};
           {| K := [SVStart]; V := height |};
           {| K := [SVEnd]; V := height |} ])
      db
    = Panic NilDereference.
Proof.
  intros C height db. unfold loadState. cbn [map loadLoop].
  unfold loadRecord. cbn [K V bytes_Equal Byte.eqb].
  cbn -[Z.eqb StoreView_Save]. rewrite !Z.eqb_refl. cbn -[StoreView_Save].
  destruct (StoreView_Save _ _). reflexivity.
Qed.

(** The two returns on an empty stack, at an SV_END and at a leaf, carry
    the same text; the mismatch of heights has a text of its own. *)
Example empty_stack_messages :
  message UnmatchedEnd = message LeafOutsideView
  /\ message HeightMismatch <> message UnmatchedEnd
  /\ message HeightMismatch <> message UnclosedView.
Proof. repeat split; discriminate. Qed.

(** C6 (counterexample).  Two loadable streams and a permutation of
    each that is not well nested: one fails with HeightMismatch, the
    other with LeafOutsideView, neither of which is UnmatchedEnd or
    UnclosedView. *)
Lemma nesting_violation_other_errors :
  (succeeded (loadState (C := Sample.sample)
                (map ReadOk Scenario.nestedViews) Sample.emptyDB) = true
   /\ Permutation Scenario.nestedViews Scenario.shuffledViews
   /\ wellNested Scenario.shuffledViews = false
   /\ loadState (C := Sample.sample)
        (map ReadOk Scenario.shuffledViews) Sample.emptyDB
      = Err HeightMismatch)
  /\ (succeeded (loadState (C := Sample.sample)
                   (map ReadOk Scenario.stateRecords) Sample.emptyDB) = true
      /\ Permutation Scenario.stateRecords Scenario.leafFirst
      /\ wellNested Scenario.leafFirst = false
      /\ loadState (C := Sample.sample)
           (map ReadOk Scenario.leafFirst) Sample.emptyDB
         = Err LeafOutsideView
      /\ succeeded (LoadSnapshot (C := Sample.sample)
                      (Some Scenario.genesisFile) Sample.emptyDB) = true
      /\ LoadSnapshot (C := Sample.sample)
           (Some {| file_metadata := Some Scenario.genesisMetadata;
                    file_records := map ReadOk Scenario.leafFirst |})
           Sample.emptyDB
         = Err LeafOutsideView).
Proof.
  split; (split; [vm_compute; reflexivity|]);
    (split; [|repeat split; vm_compute; reflexivity]).
  - unfold Scenario.nestedViews, Scenario.shuffledViews.
    apply (Permutation_cons_app
             [Scenario.start 2; Scenario.stop 1; Scenario.stop 2] []).
    rewrite app_nil_r. apply perm_skip. apply perm_swap.
  - unfold Scenario.stateRecords, Scenario.leafFirst.
    apply (Permutation_cons_app [Scenario.poolLeaf; Scenario.stop 0] []).
    rewrite app_nil_r. apply Permutation_refl.
Qed.

(** C6 (amended).  A stream of records whose SV_START and SV_END
    records are not well nested is never loaded with success; where
    [loadState] returns an error it is one of UnmatchedEnd,
    UnclosedView, LeafOutsideView, HeightMismatch, StorageRootMismatch
    and AccountDecodeFailed. *)
Theorem loadState_rejects_bad_nesting :
  forall (C : Collaborators) (records : list SnapshotTrieRecord) (db : DB),
    wellNested records = false ->
    match loadState (map ReadOk records) db with
    | Ok _ => False
    | Err e => In e streamErrors
    | Panic _ => True
    end.
Proof.
  intros C records db Hn. unfold loadState.
  pose proof (loadLoop_not_nested records (initialState db) Hn) as H.
  destruct (loadLoop (map ReadOk records) (initialState db)); exact H.
Qed.

(** The shuffled views are not well nested and fail with an error of
    the list. *)
Lemma loadState_rejects_bad_nesting_witness :
  In HeightMismatch streamErrors
  /\ match loadState (C := Sample.sample)
             (map ReadOk Scenario.shuffledViews) Sample.emptyDB with
     | Ok _ => False
     | Err e => In e streamErrors
     | Panic _ => True
     end.
Proof.
  split; [simpl; tauto|].
  apply (loadState_rejects_bad_nesting Sample.sample Scenario.shuffledViews
           Sample.emptyDB).
  reflexivity.
Defined.

Section PendingAccount.

Context {C : Collaborators}.

(** Whatever has been read since the last SV_END was read inside an
    open view. *)
Lemma view_open_after_end (records : list SnapshotTrieRecord) :
  forall (db : DB) (st : LoaderState),
    stateAfter records db = Ok st ->
    afterLastEnd records <> [] ->
    peek (ls_svStack st) <> None.
Proof.
  unfold stateAfter.
  induction records as [|record records IH] using rev_ind; intros db st H Hne.
  - exfalso. apply Hne. reflexivity.
  - rewrite loadRecords_app in H.
    destruct (loadRecords (initialState db) records) as [st0| |] eqn:H0;
      try discriminate.
    simpl in H. destruct (loadRecord st0 record) as [st1| |] eqn:H1;
      try discriminate.
    inversion H; subst st1; clear H.
    rewrite afterLastEnd_snoc in Hne. rewrite loadRecord_kinds in H1.
    rewrite peek_length.
    destruct (isStart record) eqn:Es.
    + apply loadStart_Ok in H1. lia.
    + destruct (isEnd record) eqn:Ee; [exfalso; apply Hne; reflexivity|].
      pose proof (loadLeaf_cases st0 record) as Hc. rewrite H1 in Hc.
      destruct Hc as [Hl _]. rewrite Hl. rewrite <- peek_length.
      unfold loadLeaf in H1.
      destruct (peek (ls_svStack st0)); [discriminate | discriminate].
Qed.

Lemma firstAccountLeaf_nonempty (records : list SnapshotTrieRecord)
  (l : SnapshotTrieRecord) :
  firstAccountLeaf records = Some l -> records <> [].
Proof. destruct records; [discriminate | discriminate]. Qed.

Lemma loadState_fails_at (records : list SnapshotTrieRecord)
  (record : SnapshotTrieRecord) (rest : list SnapshotTrieRecord)
  (db : DB) (st : LoaderState) (e : Error) :
  stateAfter records db = Ok st ->
  loadRecord st record = Err e ->
  loadState (map ReadOk (records ++ record :: rest)) db = Err e.
Proof.
  unfold stateAfter, loadState. intros Hs Hr.
  rewrite map_app, loadLoop_records, Hs. simpl. rewrite Hr. reflexivity.
Qed.

End PendingAccount.

(** C5 (counterexample).  In a stream with two account leaves before
    the storage scope, the root of the closed scope differs from the
    root of the account of the latest leaf, and the stream is loaded
    with no StorageRootMismatch. *)
Lemma latest_account_leaf_is_not_checked :
  stateAfter (C := Sample.sample)
    (firstn 4 Scenario.firstAccountMatches) Sample.emptyDB
  = Ok (Scenario.twoAccountsState Scenario.emptyRoot 5 true)
  /\ nth_error Scenario.firstAccountMatches 4 = Some (Scenario.stop 0)
  /\ pop (ls_svStack (Scenario.twoAccountsState Scenario.emptyRoot 5 true))
     = ([Scenario.twoAccountsView Scenario.emptyRoot 5],
        Some (NewStoreView 0 zeroHash))
  /\ peek [Scenario.twoAccountsView Scenario.emptyRoot 5]
     = Some (Scenario.twoAccountsView Scenario.emptyRoot 5)
  /\ StoreView_Height (Scenario.twoAccountsView Scenario.emptyRoot 5)
     = StoreView_Height (NewStoreView 0 zeroHash)
  /\ option_map (fun l => Account_FromBytes (Collaborators := Sample.sample)
                            (V l))
       (mostRecentAccountLeaf (firstn 4 Scenario.firstAccountMatches))
     = Some (Some {| Root := 5 |})
  /\ 5 <> fst (StoreView_Save (Collaborators := Sample.sample)
                 (NewStoreView 0 zeroHash) Sample.emptyDB)
  /\ succeeded (loadState (C := Sample.sample)
                  (map ReadOk Scenario.firstAccountMatches) Sample.emptyDB)
     = true.
Proof.
  split; [vm_compute; reflexivity|].
  split; [vm_compute; reflexivity|].
  split; [vm_compute; reflexivity|].
  split; [vm_compute; reflexivity|].
  split; [vm_compute; reflexivity|].
  split; [vm_compute; reflexivity|].
  split; [vm_compute; discriminate | vm_compute; reflexivity].
Qed.

(** C5 (amended).  When an SV_END record closes a view of its height
    while the stack stays non-empty with a top view of the same height,
    and an account leaf has been read since the last SV_END, the root
    [Save] gives for the closed view is compared with the root of the
    account decoded from the first such leaf: a difference makes
    [loadState] fail with StorageRootMismatch at that record; otherwise
    the record is accepted and leaves no pending account. *)
Theorem storage_root_checked_against_pending_account :
  forall (C : Collaborators) (db : DB)
    (records : list SnapshotTrieRecord) (record : SnapshotTrieRecord)
    (rest : list SnapshotTrieRecord) (st : LoaderState)
    (svStack : SVStack) (sv outer : StoreView) (l : SnapshotTrieRecord),
    stateAfter records db = Ok st ->
    isEnd record = true ->
    pop (ls_svStack st) = (svStack, Some sv) ->
    Bytestoi (V record) = StoreView_Height sv ->
    peek svStack = Some outer ->
    StoreView_Height outer = Bytestoi (V record) ->
    firstAccountLeaf (afterLastEnd records) = Some l ->
    exists account : Account,
      Account_FromBytes (V l) = Some account
      /\ (Root account <> fst (StoreView_Save sv (ls_db st)) ->
          loadState (map ReadOk (records ++ record :: rest)) db
          = Err StorageRootMismatch)
      /\ (Root account = fst (StoreView_Save sv (ls_db st)) ->
          exists st' : LoaderState,
            stateAfter (records ++ [record]) db = Ok st'
            /\ ls_account st' = None
            /\ ls_svStack st' = svStack
            /\ ls_sv st' = Some sv
            /\ ls_hash st' = Root account).
Proof.
  intros C db records record rest st svStack sv outer l
    Hs He Hpop Hh Hpeek Ho Hl.
  pose proof (pending_account records db st Hs) as Hp. rewrite Hl in Hp.
  destruct Hp as [account [Hd Ha]]. exists account. split; [exact Hd|].
  assert (Hr : loadRecord st record =
               let (hash, db') := StoreView_Save sv (ls_db st) in
               if negb (Root account =? hash) then Err StorageRootMismatch
               else Ok {| ls_db := db'; ls_svStack := svStack;
                          ls_sv := Some sv; ls_hash := hash;
                          ls_account := None |}).
  { rewrite loadRecord_kinds, (isEnd_not_isStart record He), He.
    unfold loadEnd. rewrite Hpop, Hh, Z.eqb_refl. simpl.
    destruct (StoreView_Save sv (ls_db st)) as [hash db'].
    rewrite Hpeek, Ho, Hh, Z.eqb_refl, Ha. reflexivity. }
  destruct (StoreView_Save sv (ls_db st)) as [hash db'] eqn:Esave.
  simpl fst. split.
  - intro Hne. apply (loadState_fails_at records record rest db st); auto.
    rewrite Hr. apply Z.eqb_neq in Hne. rewrite Hne. reflexivity.
  - intro Heq. eexists. unfold stateAfter in *.
    rewrite loadRecords_app, Hs. simpl. rewrite Hr.
    apply Z.eqb_eq in Heq. rewrite Heq. simpl.
    split; [reflexivity|]. simpl. apply Z.eqb_eq in Heq. auto.
Qed.

(** One account with an empty storage scope: the scope closes against
    the root the account declares. *)
Lemma storage_root_checked_against_pending_account_witness :
  exists account : Account,
    Account_FromBytes (Collaborators := Sample.sample)
      (V (Scenario.accountLeaf "a" Scenario.emptyRoot)) = Some account
    /\ (Root account <> Scenario.emptyRoot ->
        loadState (C := Sample.sample)
          (map ReadOk
             (Scenario.accountScopeOpen
              ++ Scenario.stop 0 :: [Scenario.stop 0]))
          Sample.emptyDB
        = Err StorageRootMismatch)
    /\ (Root account = Scenario.emptyRoot ->
        exists st' : LoaderState,
          stateAfter (C := Sample.sample)
            (Scenario.accountScopeOpen ++ [Scenario.stop 0]) Sample.emptyDB
          = Ok st'
          /\ ls_account st' = None
          /\ ls_svStack st' = [Scenario.accountView]
          /\ ls_sv st' = Some (NewStoreView 0 zeroHash)
          /\ ls_hash st' = Root account).
Proof.
  assert (Hs : stateAfter (C := Sample.sample) Scenario.accountScopeOpen
                 Sample.emptyDB
               = Ok {| ls_db := Sample.emptyDB;
                       ls_svStack :=
                         [Scenario.accountView; NewStoreView 0 zeroHash];
                       ls_sv := None; ls_hash := zeroHash;
                       ls_account := Some {| Root := Scenario.emptyRoot |} |})
    by (vm_compute; reflexivity).
  exact (storage_root_checked_against_pending_account Sample.sample
           Sample.emptyDB Scenario.accountScopeOpen (Scenario.stop 0)
           [Scenario.stop 0] _ [Scenario.accountView]
           (NewStoreView 0 zeroHash) Scenario.accountView
           (Scenario.accountLeaf "a" Scenario.emptyRoot)
           Hs eq_refl eq_refl eq_refl eq_refl eq_refl eq_refl).
Defined.

(** C7 (counterexample).  After two account leaves the pending account
    is the one of the first leaf, not the one decoded from the second;
    the storage scope that follows has the root the second account
    declares, and the stream fails with StorageRootMismatch. *)
Lemma second_account_leaf_not_recorded :
  Account_FromBytes (Collaborators := Sample.sample)
    (V (Scenario.accountLeaf "a" 5)) = Some {| Root := 5 |}
  /\ Account_FromBytes (Collaborators := Sample.sample)
       (V (Scenario.accountLeaf "b" Scenario.emptyRoot))
     = Some {| Root := Scenario.emptyRoot |}
  /\ {| Root := 5 |} <> {| Root := Scenario.emptyRoot |}
  /\ stateAfter (C := Sample.sample)
       (firstn 3 Scenario.secondAccountMatches) Sample.emptyDB
     = Ok (Scenario.twoAccountsState 5 Scenario.emptyRoot false)
  /\ ls_account (Scenario.twoAccountsState 5 Scenario.emptyRoot false)
     = Some {| Root := 5 |}
  /\ Scenario.emptyRoot
     = fst (StoreView_Save (Collaborators := Sample.sample)
              (NewStoreView 0 zeroHash) Sample.emptyDB)
  /\ loadState (C := Sample.sample)
       (map ReadOk Scenario.secondAccountMatches) Sample.emptyDB
     = Err StorageRootMismatch.
Proof.
  split; [vm_compute; reflexivity|].
  split; [vm_compute; reflexivity|].
  split; [vm_compute; discriminate|].
  split; [vm_compute; reflexivity|].
  split; [vm_compute; reflexivity|].
  split; vm_compute; reflexivity.
Qed.

(** C7 (amended).  When an account leaf arrives after another account
    leaf has been read since the last SV_END, the loader accepts it and
    keeps the pending account, which is the one decoded from the first
    of these leaves: the later storage-root check compares against the
    first account leaf, not the most recent one. *)
Theorem account_leaf_keeps_pending_account :
  forall (C : Collaborators) (db : DB) (records : list SnapshotTrieRecord)
    (first later : SnapshotTrieRecord) (st : LoaderState),
    stateAfter records db = Ok st ->
    firstAccountLeaf (afterLastEnd records) = Some first ->
    isAccountLeaf later = true ->
    exists (account : Account) (st' : LoaderState),
      Account_FromBytes (V first) = Some account
      /\ stateAfter (records ++ [later]) db = Ok st'
      /\ ls_account st' = Some account
      /\ firstAccountLeaf (afterLastEnd (records ++ [later])) = Some first.
Proof.
  intros C db records first later st Hs Hf Hl.
  pose proof (pending_account records db st Hs) as Hp. rewrite Hf in Hp.
  destruct Hp as [account [Hd Ha]].
  pose proof (view_open_after_end records db st Hs
                (firstAccountLeaf_nonempty _ _ Hf)) as Hopen.
  unfold isAccountLeaf in Hl. apply andb_true_iff in Hl.
  destruct Hl as [Hl _]. apply andb_true_iff in Hl. destruct Hl as [H1 H2].
  apply negb_true_iff in H1, H2.
  exists account.
  assert (Hr : exists st', loadRecord st later = Ok st'
                           /\ ls_account st' = Some account).
  { rewrite loadRecord_kinds, H1, H2. unfold loadLeaf.
    destruct (peek (ls_svStack st)); [|congruence].
    rewrite Ha. eexists. split; reflexivity. }
  destruct Hr as [st' [Hr Ha']]. exists st'.
  split; [exact Hd|]. split.
  - unfold stateAfter in *. rewrite loadRecords_app, Hs. simpl.
    rewrite Hr. reflexivity.
  - split; [exact Ha'|].
    rewrite afterLastEnd_snoc, H2, firstAccountLeaf_snoc, Hf. reflexivity.
Qed.

(** Two account leaves in a row: the account of the first stays
    pending. *)
Lemma account_leaf_keeps_pending_account_witness :
  exists (account : Account) (st' : LoaderState),
    Account_FromBytes (Collaborators := Sample.sample)
      (V (Scenario.accountLeaf "a" 5)) = Some account
    /\ stateAfter (C := Sample.sample)
         (firstn 2 Scenario.secondAccountMatches
          ++ [Scenario.accountLeaf "b" Scenario.emptyRoot])
         Sample.emptyDB = Ok st'
    /\ ls_account st' = Some account
    /\ firstAccountLeaf
         (afterLastEnd
            (firstn 2 Scenario.secondAccountMatches
             ++ [Scenario.accountLeaf "b" Scenario.emptyRoot]))
       = Some (Scenario.accountLeaf "a" 5).
Proof.
  refine (account_leaf_keeps_pending_account Sample.sample Sample.emptyDB
            (firstn 2 Scenario.secondAccountMatches)
            (Scenario.accountLeaf "a" 5)
            (Scenario.accountLeaf "b" Scenario.emptyRoot)
            _ _ _ _).
  - vm_compute; reflexivity.
  - reflexivity.
  - reflexivity.
Defined.

(** The three validators voting for the second block of the later
    trio. *)
Lemma validateVotes_succeeds_iff_witness :
  validateVotes (C := Sample.sample)
    [ {| val_ID := 1; val_Stake := 10 |}; {| val_ID := 2; val_Stake := 10 |};
      {| val_ID := 3; val_Stake := 10 |} ]
    Scenario.laterSecond (cc_Votes (HCC Scenario.laterThird))
  = Ok tt.
Proof.
  apply (proj1 (validateVotes_succeeds_iff Sample.sample _ _ _)).
  split; [reflexivity|].
  repeat constructor; try reflexivity; discriminate.
Defined.

(* ================================================================= *)
(** ** The stack, continued *)

Lemma pop_Some_inv (s s' : SVStack) (sv : StoreView) :
  pop s = (s', Some sv) <-> s = s' ++ [sv].
Proof.
  split.
  - unfold pop. destruct (List.length s) eqn:E; [discriminate|].
    intro H. inversion H; subst; clear H.
    rewrite <- (firstn_skipn n s) at 1. f_equal.
    assert (Hl : List.length (skipn n s) = 1%nat)
      by (rewrite length_skipn; lia).
    destruct (skipn n s) as [|x [|y l]] eqn:Es; try discriminate.
    f_equal. rewrite <- (firstn_skipn n s), Es in H2.
    rewrite nth_error_app2 in H2 by (rewrite length_firstn; lia).
    rewrite length_firstn in H2.
    replace (n - Nat.min n (List.length s))%nat with 0%nat in H2 by lia.
    simpl in H2. congruence.
  - intros ->. apply pop_push.
Qed.

Lemma peek_Some_inv (s : SVStack) (sv : StoreView) :
  peek s = Some sv <-> exists s', s = s' ++ [sv].
Proof.
  split.
  - intro H. exists (fst (pop s)). apply pop_Some_inv.
    unfold pop, peek in *. destruct (List.length s); [discriminate|].
    simpl. rewrite H. reflexivity.
  - intros [s' ->]. apply peek_push.
Qed.

Lemma update_top_snoc (s : SVStack) (sv sv' : StoreView) :
  update_top (s ++ [sv]) sv' = s ++ [sv'].
Proof.
  unfold update_top. rewrite length_app. simpl.
  replace (List.length s + 1)%nat with (S (List.length s)) by lia.
  rewrite firstn_app, firstn_all, Nat.sub_diag. simpl.
  rewrite app_nil_r. reflexivity.
Qed.

(** X1.  Pushing a view and popping gives back the stack as it was and
    the view pushed, whatever the stack holds; [peek] then shows that
    view, and the stack is one entry longer. *)
Theorem SVStack_push_then_pop :
  forall (s : SVStack) (sv : StoreView),
    pop (push s sv) = (s, Some sv)
    /\ peek (push s sv) = Some sv
    /\ List.length (push s sv) = S (List.length s).
Proof.
  intros s sv. split; [apply pop_push|].
  split; [apply peek_push | apply push_length].
Qed.

(** X2.  [pop] returns what [peek] shows.  On an empty stack both give
    nil and the stack is returned as it is; otherwise pushing the popped
    view back onto the popped stack restores the stack. *)
Theorem SVStack_pop_then_push :
  forall s : SVStack,
    snd (pop s) = peek s
    /\ (s = [] -> pop s = ([], None))
    /\ (forall sv : StoreView,
          peek s = Some sv ->
          push (fst (pop s)) sv = s
          /\ List.length s = S (List.length (fst (pop s)))).
Proof.
  intro s. split; [|split].
  - unfold pop, peek. destruct (List.length s); reflexivity.
  - intros ->. reflexivity.
  - intros sv H. apply peek_Some_inv in H. destruct H as [s' ->].
    pose proof (pop_push s' sv) as Hp. unfold push in Hp. rewrite Hp.
    simpl. unfold push. rewrite length_app. simpl.
    split; [reflexivity | lia].
Qed.

Lemma SVStack_pop_then_push_witness :
  push (fst (pop [NewStoreView 1 zeroHash; NewStoreView 2 zeroHash]))
    (NewStoreView 2 zeroHash)
  = [NewStoreView 1 zeroHash; NewStoreView 2 zeroHash]
  /\ List.length [NewStoreView 1 zeroHash; NewStoreView 2 zeroHash]
     = S (List.length
            (fst (pop [NewStoreView 1 zeroHash; NewStoreView 2 zeroHash]))).
Proof.
  apply (proj2 (proj2 (SVStack_pop_then_push
                         [NewStoreView 1 zeroHash; NewStoreView 2 zeroHash]))).
  reflexivity.
Defined.

(* ================================================================= *)
(** ** loadState, continued *)

Section LoaderShape.

Context {C : Collaborators}.

Lemma loadEnd_Ok_inv (st st' : LoaderState) (record : SnapshotTrieRecord) :
  loadEnd st record = Ok st' ->
  exists (s' : SVStack) (v : StoreView) (hash : Hash) (db' : DB),
    ls_svStack st = s' ++ [v]
    /\ Bytestoi (V record) = StoreView_Height v
    /\ StoreView_Save v (ls_db st) = (hash, db')
    /\ st' = {| ls_db := db'; ls_svStack := s'; ls_sv := Some v;
                ls_hash := hash; ls_account := None |}.
Proof.
  unfold loadEnd.
  destruct (pop (ls_svStack st)) as [s' [v|]] eqn:Hpop; [|discriminate].
  apply pop_Some_inv in Hpop.
  destruct (Bytestoi (V record) =? StoreView_Height v) eqn:Eh;
    [|discriminate].
  apply Z.eqb_eq in Eh. simpl.
  destruct (StoreView_Save v (ls_db st)) as [hash db'] eqn:Es.
  intro H. exists s', v, hash, db'.
  split; [exact Hpop|]. split; [exact Eh|]. split; [exact Es|].
  destruct (peek s') as [outer|];
    [|inversion H; reflexivity].
  destruct (Bytestoi (V record) =? StoreView_Height outer);
    [|inversion H; reflexivity].
  destruct (ls_account st) as [account|]; [|discriminate].
  destruct (negb (Root account =? hash));
    [discriminate | inversion H; reflexivity].
Qed.

Lemma loadLeaf_Ok_inv (st st' : LoaderState) (record : SnapshotTrieRecord) :
  loadLeaf st record = Ok st' ->
  exists (s' : SVStack) (v : StoreView),
    ls_svStack st = s' ++ [v]
    /\ ls_svStack st' = s' ++ [StoreView_Set v (K record) (V record)]
    /\ ls_db st' = ls_db st
    /\ ls_sv st' = ls_sv st
    /\ ls_hash st' = ls_hash st.
Proof.
  unfold loadLeaf.
  destruct (peek (ls_svStack st)) as [v|] eqn:Hp; [|discriminate].
  apply peek_Some_inv in Hp. destruct Hp as [s' Hs]. intro H.
  exists s', v. split; [exact Hs|]. rewrite Hs, update_top_snoc in H.
  destruct (ls_account st).
  - inversion H; subst; simpl. auto.
  - destruct (HasPrefix (K record) accountPrefix).
    + destruct (Account_FromBytes (V record)); [|discriminate].
      inversion H; subst; simpl. auto.
    + inversion H; subst; simpl. auto.
Qed.

Lemma loadState_Ok_iff (records : list SnapshotTrieRecord) (db db' : DB)
  (sv : option StoreView) (hash : Hash) :
  loadState (map ReadOk records) db = Ok (sv, hash, db')
  <-> exists st : LoaderState,
        stateAfter records db = Ok st
        /\ ls_svStack st = []
        /\ sv = ls_sv st /\ hash = ls_hash st /\ db' = ls_db st.
Proof.
  unfold loadState, stateAfter.
  rewrite <- (app_nil_r (map ReadOk records)), loadLoop_records.
  destruct (loadRecords (initialState db) records) as [st| |]; simpl.
  - destruct (peek (ls_svStack st)) eqn:Hp; simpl.
    + split; [discriminate|]. intros [st0 [H [Hs _]]].
      inversion H; subst. rewrite Hs in Hp. discriminate.
    + apply peek_nil_iff in Hp. split.
      * intro H. inversion H; subst. exists st. auto.
      * intros [st0 [H [_ [-> [-> ->]]]]]. inversion H; subst. reflexivity.
  - split; [discriminate | intros [st0 [H _]]; discriminate].
  - split; [discriminate | intros [st0 [H _]]; discriminate].
Qed.

(** The leaves of a run go into the top view, in order. *)
Lemma loadRecords_leaves (leaves : list SnapshotTrieRecord) :
  forall (st : LoaderState) (s' : SVStack) (v : StoreView),
    ls_svStack st = s' ++ [v] ->
    Forall (fun record => isLeaf record = true) leaves ->
    (ls_account st = None ->
     match firstAccountLeaf leaves with
     | Some l => Account_FromBytes (V l) <> None
     | None => True
     end) ->
    exists st' : LoaderState,
      loadRecords st leaves = Ok st'
      /\ ls_svStack st' =
           s' ++ [ {| sv_height := sv_height v; sv_root := sv_root v;
                      sv_leaves := sv_leaves v ++ leafPairs leaves |} ]
      /\ ls_db st' = ls_db st
      /\ ls_sv st' = ls_sv st
      /\ ls_hash st' = ls_hash st.
Proof.
  induction leaves as [|l leaves IH]; intros st s' v Hs Hl Hd.
  - exists st. simpl. rewrite app_nil_r. destruct v; auto.
  - inversion Hl as [|? ? Hleaf Hrest]; subst.
    unfold isLeaf in Hleaf. apply andb_true_iff in Hleaf.
    destruct Hleaf as [H1 H2]. apply negb_true_iff in H1, H2.
    simpl. rewrite loadRecord_kinds, H1, H2.
    assert (Hstep : exists st1, loadLeaf st l = Ok st1
              /\ (ls_account st1 = None ->
                  ls_account st = None /\ isAccountLeaf l = false)).
    { unfold loadLeaf. rewrite Hs.
      pose proof (peek_push s' v) as Hp. unfold push in Hp. rewrite Hp.
      destruct (ls_account st) as [a|] eqn:Ea.
      - eexists. split; [reflexivity|]. simpl. discriminate.
      - specialize (Hd eq_refl). unfold firstAccountLeaf in Hd. simpl in Hd.
        unfold isAccountLeaf in *. rewrite H1, H2 in *. simpl in *.
        destruct (HasPrefix (K l) accountPrefix).
        + destruct (Account_FromBytes (V l)); [|congruence].
          eexists. split; [reflexivity|]. simpl. discriminate.
        + eexists. split; [reflexivity|]. auto. }
    destruct Hstep as [st1 [Hst1 Hacc]]. rewrite Hst1. simpl.
    destruct (loadLeaf_Ok_inv st st1 l Hst1)
      as [s0 [v0 [Hs0 [Hs1 [Hdb [Hsv Hh]]]]]].
    rewrite Hs in Hs0. apply app_inj_tail in Hs0. destruct Hs0; subst s0 v0.
    destruct (IH st1 s' (StoreView_Set v (K l) (V l)) Hs1 Hrest)
      as [st' [Hr [Hst' [Hdb' [Hsv' Hh']]]]].
    { intro Hn. destruct (Hacc Hn) as [Hn0 Hal]. specialize (Hd Hn0).
      unfold firstAccountLeaf in *. simpl in Hd. rewrite Hal in Hd.
      exact Hd. }
    exists st'. split; [exact Hr|]. split.
    + rewrite Hst'. simpl. rewrite <- app_assoc. reflexivity.
    + repeat split; congruence.
Qed.

End LoaderShape.

(** X3.  A stream of one scope, an SV_START and an SV_END of the same
    height bytes around leaves, is loaded when the first account leaf
    among them (if there is one) decodes: the view returned is at that
    height, over the zero root, with the leaves in the order of the
    file, and the hash and the database are those its [Save] gives. *)
Theorem loadState_single_scope :
  forall (C : Collaborators) (db : DB) (height : Bytes)
    (leaves : list SnapshotTrieRecord),
    Forall (fun record => isLeaf record = true) leaves ->
    match firstAccountLeaf leaves with
    | Some l => Account_FromBytes (V l) <> None
    | None => True
    end ->
    loadState
      (map ReadOk
         ({| K := [SVStart]; V := height |}
          :: leaves ++ [ {| K := [SVEnd]; V := height |} ]))
      db
    = Ok (Some {| sv_height := Bytestoi height; sv_root := zeroHash;
                  sv_leaves := leafPairs leaves |},
          fst (StoreView_Save
                 {| sv_height := Bytestoi height; sv_root := zeroHash;
                    sv_leaves := leafPairs leaves |} db),
          snd (StoreView_Save
                 {| sv_height := Bytestoi height; sv_root := zeroHash;
                    sv_leaves := leafPairs leaves |} db)).
Proof.
  intros C db height leaves Hl Hd.
  apply loadState_Ok_iff. unfold stateAfter.
  cbn [loadRecords]. rewrite loadRecord_kinds.
  change (isStart {| K := [SVStart]; V := height |}) with true.
  cbv iota. unfold loadStart. cbn [bind initialState ls_svStack V].
  rewrite loadRecords_app.
  match goal with
  | |- context [loadRecords ?st leaves] =>
      destruct (loadRecords_leaves leaves st []
                  (NewStoreView (Bytestoi height) zeroHash) eq_refl Hl
                  (fun _ => Hd))
        as [st' [Hr [Hs [Hdb [Hsv Hh]]]]]
  end.
  rewrite Hr. cbn [bind loadRecords]. rewrite loadRecord_kinds.
  change (isStart {| K := [SVEnd]; V := height |}) with false.
  change (isEnd {| K := [SVEnd]; V := height |}) with true.
  cbv iota. unfold loadEnd. rewrite Hs.
  match goal with
  | |- context [pop ([] ++ [?x])] =>
      change ([] ++ [x]) with (push [] x); rewrite (pop_push [] x)
  end.
  cbn [V StoreView_Height sv_height]. rewrite Z.eqb_refl.
  cbn [negb peek List.length]. rewrite Hdb. cbn [ls_db NewStoreView sv_leaves
    sv_root sv_height app].
  simpl. destruct (StoreView_Save _ db) as [hash db'] eqn:Es.
  simpl. eexists. split; [reflexivity|]. simpl. auto.
Qed.

(** One leaf between SV_START 0 and SV_END 0: the records of the
    genesis state. *)
Lemma loadState_single_scope_witness :
  loadState (C := Sample.sample) (map ReadOk Scenario.stateRecords)
    Sample.emptyDB
  = Ok (Some Scenario.loadedView,
        fst (StoreView_Save (Collaborators := Sample.sample)
               Scenario.loadedView Sample.emptyDB),
        snd (StoreView_Save (Collaborators := Sample.sample)
               Scenario.loadedView Sample.emptyDB)).
Proof.
  refine (loadState_single_scope Sample.sample Sample.emptyDB (be_bytes 8 0)
            [Scenario.poolLeaf] _ _).
  - constructor; [reflexivity | constructor].
  - exact I.
Defined.

(** X4.  A stream that is loaded and is not empty ends with an SV_END
    record: the view returned is the one that record closes, the only
    one open by then, at the height the record carries, and the hash
    and the database returned are what [Save] gives for that view.  The
    empty stream is loaded to no view, the zero hash and the database
    as it was. *)
Theorem loadState_returns_last_closed_view :
  forall (C : Collaborators) (records : list SnapshotTrieRecord)
    (db db' : DB) (sv : option StoreView) (hash : Hash),
    loadState (map ReadOk records) db = Ok (sv, hash, db') ->
    (records = [] /\ sv = None /\ hash = zeroHash /\ db' = db)
    \/ (exists (init : list SnapshotTrieRecord) (last : SnapshotTrieRecord)
          (st : LoaderState) (v : StoreView),
          records = init ++ [last]
          /\ isEnd last = true
          /\ stateAfter init db = Ok st
          /\ ls_svStack st = [v]
          /\ sv = Some v
          /\ StoreView_Height v = Bytestoi (V last)
          /\ StoreView_Save v (ls_db st) = (hash, db')).
Proof.
  intros C records db db' sv hash H.
  apply loadState_Ok_iff in H. destruct H as [st [Hs [Hnil [-> [-> ->]]]]].
  destruct records as [|r records] using rev_ind.
  - left. inversion Hs; subst. auto.
  - clear IHrecords. right. unfold stateAfter in Hs.
    rewrite loadRecords_app in Hs.
    destruct (loadRecords (initialState db) records) as [st0| |] eqn:H0;
      try discriminate.
    simpl in Hs. destruct (loadRecord st0 r) as [st1| |] eqn:H1;
      try discriminate.
    inversion Hs; subst st1; clear Hs. rewrite loadRecord_kinds in H1.
    destruct (isStart r) eqn:Es.
    + apply loadStart_Ok in H1. destruct H1 as [Hl _].
      rewrite Hnil in Hl. discriminate.
    + destruct (isEnd r) eqn:Ee.
      * apply loadEnd_Ok_inv in H1.
        destruct H1 as [s' [v [hash [db1 [Hst [Hh [Hsave ->]]]]]]].
        simpl in Hnil. subst s'.
        exists records, r, st0, v. simpl. repeat split; auto.
      * apply loadLeaf_Ok_inv in H1.
        destruct H1 as [s' [v [_ [Hst _]]]]. rewrite Hnil in Hst.
        destruct s'; discriminate.
Qed.

(** The nested views: the stream ends with the SV_END of the outer
    view, which is the view returned. *)
Lemma loadState_returns_last_closed_view_witness :
  (Scenario.nestedViews = []
   /\ Some (NewStoreView 1 zeroHash) = None
   /\ zeroHash = zeroHash
   /\ Cases.nestedDB = Sample.emptyDB)
  \/ (exists (init : list SnapshotTrieRecord) (last : SnapshotTrieRecord)
        (st : LoaderState (C := Sample.sample)) (v : StoreView),
        Scenario.nestedViews = init ++ [last]
        /\ isEnd last = true
        /\ stateAfter (C := Sample.sample) init Sample.emptyDB = Ok st
        /\ ls_svStack st = [v]
        /\ Some (NewStoreView 1 zeroHash) = Some v
        /\ StoreView_Height v
           = Bytestoi (Collaborators := Sample.sample) (V last)
        /\ StoreView_Save (Collaborators := Sample.sample) v (ls_db st)
           = (zeroHash, Cases.nestedDB)).
Proof.
  apply (loadState_returns_last_closed_view Sample.sample
           Scenario.nestedViews Sample.emptyDB).
  vm_compute; reflexivity.
Defined.

Section ScopeHeights.

Context {C : Collaborators}.

Lemma heights_snoc (s : SVStack) (v : StoreView) :
  rev (map sv_height (s ++ [v])) = sv_height v :: rev (map sv_height s).
Proof. rewrite map_app, rev_app_distr. reflexivity. Qed.

(** The heights of the views on the stack are the heights of the scopes
    still open. *)
Lemma loadRecords_scopesClosed (records : list SnapshotTrieRecord) :
  forall st st' : LoaderState,
    loadRecords st records = Ok st' ->
    ls_svStack st' = [] ->
    scopesClosed (rev (map sv_height (ls_svStack st))) records = true.
Proof.
  induction records as [|r records IH]; intros st st' H Hnil.
  - inversion H; subst. rewrite Hnil. reflexivity.
  - simpl in H. destruct (loadRecord st r) as [st1| |] eqn:H1;
      try discriminate.
    simpl in H. specialize (IH st1 st' H Hnil).
    rewrite loadRecord_kinds in H1. cbn [scopesClosed].
    destruct (isStart r) eqn:Es.
    + unfold loadStart in H1. inversion H1; subst st1; clear H1.
      simpl in IH. unfold push in IH. rewrite heights_snoc in IH. exact IH.
    + destruct (isEnd r) eqn:Ee.
      * apply loadEnd_Ok_inv in H1.
        destruct H1 as [s' [v [hash [db1 [Hst [Hh [_ ->]]]]]]].
        rewrite Hst, heights_snoc. simpl in IH.
        unfold StoreView_Height in Hh. rewrite Hh, Z.eqb_refl. exact IH.
      * apply loadLeaf_Ok_inv in H1.
        destruct H1 as [s' [v [Hst [Hst1 _]]]].
        rewrite Hst, heights_snoc. rewrite Hst1, heights_snoc in IH.
        exact IH.
Qed.

End ScopeHeights.

(** X5.  In a stream that is loaded every SV_END record carries the
    height of the scope it closes, the innermost one open, every leaf
    lies inside a scope and every scope is closed at the end of the
    file. *)
Theorem loadState_scopes_closed :
  forall (C : Collaborators) (records : list SnapshotTrieRecord)
    (db : DB) (result : option StoreView * Hash * DB),
    loadState (map ReadOk records) db = Ok result ->
    scopesClosed [] records = true.
Proof.
  intros C records db [[sv hash] db'] H.
  apply loadState_Ok_iff in H. destruct H as [st [Hs [Hnil _]]].
  exact (loadRecords_scopesClosed records (initialState db) st Hs Hnil).
Qed.

Lemma loadState_scopes_closed_witness :
  scopesClosed (C := Sample.sample) [] Scenario.nestedViews = true.
Proof.
  apply (loadState_scopes_closed Sample.sample Scenario.nestedViews
           Sample.emptyDB
           (Some (NewStoreView 1 zeroHash), zeroHash, Cases.nestedDB)).
  vm_compute; reflexivity.
Defined.

(** X6.  A read error that is not the end of the file, coming after
    records the loader has accepted, makes [loadState] return
    ReadFailed, whether or not views are still open and whatever the
    file holds after it. *)
Theorem loadState_read_error :
  forall (C : Collaborators) (records : list SnapshotTrieRecord)
    (rest : list ReadResult) (db : DB) (st : LoaderState),
    stateAfter records db = Ok st ->
    loadState (map ReadOk records ++ ReadError :: rest) db = Err ReadFailed.
Proof.
  intros C records rest db st Hs. unfold loadState, stateAfter in *.
  rewrite loadLoop_records, Hs. reflexivity.
Qed.

(** A read error inside a view that is still open. *)
Lemma loadState_read_error_witness :
  loadState (C := Sample.sample)
    (map ReadOk [Scenario.start 0; Scenario.poolLeaf]
     ++ ReadError :: [ReadOk (Scenario.stop 0)])
    Sample.emptyDB
  = Err ReadFailed.
Proof.
  refine (loadState_read_error Sample.sample
            [Scenario.start 0; Scenario.poolLeaf] [ReadOk (Scenario.stop 0)]
            Sample.emptyDB
            {| ls_db := Sample.emptyDB;
               ls_svStack := [Scenario.loadedView];
               ls_sv := None; ls_hash := zeroHash; ls_account := None |} _).
  vm_compute; reflexivity.
Defined.

(** X7.  The first record the loader does not accept decides the
    result: [loadState] returns the error of that record, or panics as
    it does, whatever the file holds after it. *)
Theorem loadState_first_failure :
  forall (C : Collaborators) (records : list SnapshotTrieRecord)
    (rest : list ReadResult) (db : DB),
    (forall e : Error,
        stateAfter records db = Err e ->
        loadState (map ReadOk records ++ rest) db = Err e)
    /\ (forall p : PanicCause,
          stateAfter records db = Panic p ->
          loadState (map ReadOk records ++ rest) db = Panic p).
Proof.
  intros C records rest db. unfold loadState, stateAfter.
  split; intros x Hs; rewrite loadLoop_records, Hs; reflexivity.
Qed.

(** The shuffled views fail at their second record; what follows is not
    looked at. *)
Lemma loadState_first_failure_witness :
  loadState (C := Sample.sample)
    (map ReadOk [Scenario.start 2; Scenario.stop 1]
     ++ [ReadOk (Scenario.stop 2); ReadError])
    Sample.emptyDB
  = Err HeightMismatch.
Proof.
  apply (proj1 (loadState_first_failure Sample.sample
                  [Scenario.start 2; Scenario.stop 1]
                  [ReadOk (Scenario.stop 2); ReadError] Sample.emptyDB)).
  vm_compute; reflexivity.
Defined.

(** X8.  An account leaf read inside a view while no account is
    pending must decode: when [types.FromBytes] fails on its value,
    [loadState] returns AccountDecodeFailed at that record. *)
Theorem loadState_account_decode_failure :
  forall (C : Collaborators) (records : list SnapshotTrieRecord)
    (l : SnapshotTrieRecord) (rest : list SnapshotTrieRecord)
    (db : DB) (st : LoaderState),
    stateAfter records db = Ok st ->
    peek (ls_svStack st) <> None ->
    ls_account st = None ->
    isAccountLeaf l = true ->
    Account_FromBytes (V l) = None ->
    loadState (map ReadOk (records ++ l :: rest)) db
    = Err AccountDecodeFailed.
Proof.
  intros C records l rest db st Hs Hp Ha Hl Hd.
  apply (loadState_fails_at records l rest db st _ Hs).
  unfold isAccountLeaf in Hl. apply andb_true_iff in Hl.
  destruct Hl as [Hl Hpre]. apply andb_true_iff in Hl. destruct Hl as [H1 H2].
  apply negb_true_iff in H1, H2.
  rewrite loadRecord_kinds, H1, H2. unfold loadLeaf.
  destruct (peek (ls_svStack st)); [|congruence].
  rewrite Ha, Hpre, Hd. reflexivity.
Qed.

(** An account leaf whose value is one byte long, where the sample
    codec wants thirty-two. *)
Lemma loadState_account_decode_failure_witness :
  loadState (C := Sample.sample)
    (map ReadOk
       ([Scenario.start 0]
        ++ Scenario.leaf (accountPrefix ++ bytes_of "a") [x01]
           :: [Scenario.stop 0]))
    Sample.emptyDB
  = Err AccountDecodeFailed.
Proof.
  refine (loadState_account_decode_failure Sample.sample
            [Scenario.start 0]
            (Scenario.leaf (accountPrefix ++ bytes_of "a") [x01])
            [Scenario.stop 0] Sample.emptyDB
            {| ls_db := Sample.emptyDB;
               ls_svStack := [NewStoreView 0 zeroHash];
               ls_sv := None; ls_hash := zeroHash; ls_account := None |}
            _ _ _ _ _).
  - vm_compute; reflexivity.
  - discriminate.
  - reflexivity.
  - reflexivity.
  - reflexivity.
Defined.

(** X9.  When an SV_END record closes a view and either no view is
    left on the stack or the view below is at another height, the root
    of the closed view is compared with nothing: the record is accepted
    whatever account is pending and whatever root [Save] gives, and the
    pending account is dropped. *)
Theorem loadState_scope_not_compared :
  forall (C : Collaborators) (db : DB)
    (records : list SnapshotTrieRecord) (record : SnapshotTrieRecord)
    (st : LoaderState) (svStack : SVStack) (sv : StoreView)
    (hash : Hash) (db' : DB),
    stateAfter records db = Ok st ->
    isEnd record = true ->
    pop (ls_svStack st) = (svStack, Some sv) ->
    Bytestoi (V record) = StoreView_Height sv ->
    match peek svStack with
    | Some outer => StoreView_Height outer <> Bytestoi (V record)
    | None => True
    end ->
    StoreView_Save sv (ls_db st) = (hash, db') ->
    stateAfter (records ++ [record]) db
    = Ok {| ls_db := db'; ls_svStack := svStack; ls_sv := Some sv;
            ls_hash := hash; ls_account := None |}.
Proof.
  intros C db records record st svStack sv hash db' Hs He Hpop Hh Ho Hsave.
  unfold stateAfter in *. rewrite loadRecords_app, Hs. simpl.
  rewrite loadRecord_kinds, (isEnd_not_isStart record He), He.
  unfold loadEnd. rewrite Hpop, Hh, Z.eqb_refl. simpl. rewrite Hsave.
  destruct (peek svStack) as [outer|]; [|reflexivity].
  destruct (StoreView_Height sv =? StoreView_Height outer) eqn:E;
    [|reflexivity].
  apply Z.eqb_eq in E. exfalso. apply Ho. rewrite Hh. auto.
Qed.

(** The inner view of the nested views, at height 2 inside height 1,
    closed while no account was ever read. *)
Lemma loadState_scope_not_compared_witness :
  stateAfter (C := Sample.sample)
    ([Scenario.start 1; Scenario.start 2] ++ [Scenario.stop 2])
    Sample.emptyDB
  = Ok {| ls_db := Cases.innerDB;
          ls_svStack := [NewStoreView 1 zeroHash];
          ls_sv := Some (NewStoreView 2 zeroHash);
          ls_hash := zeroHash; ls_account := None |}.
Proof.
  refine (loadState_scope_not_compared Sample.sample Sample.emptyDB
            [Scenario.start 1; Scenario.start 2] (Scenario.stop 2)
            {| ls_db := Sample.emptyDB;
               ls_svStack := [NewStoreView 1 zeroHash;
                              NewStoreView 2 zeroHash];
               ls_sv := None; ls_hash := zeroHash; ls_account := None |}
            [NewStoreView 1 zeroHash] (NewStoreView 2 zeroHash)
            zeroHash Cases.innerDB _ _ _ _ _ _).
  - vm_compute; reflexivity.
  - reflexivity.
  - reflexivity.
  - reflexivity.
  - simpl. discriminate.
  - reflexivity.
Defined.

(* ================================================================= *)
(** ** checkSnapshot, continued *)

Section TrioChain.

Context {C : Collaborators}.

Lemma checkTrios_app (pre l : list SnapshotBlockTrio) :
  forall (idx : nat) (proven : option ValidatorSet) (db : DB),
    checkTrios idx (pre ++ l) proven db
    = (p <- checkTrios idx pre proven db ;;
       checkTrios (idx + List.length pre) l p db).
Proof.
  induction pre as [|t pre IH]; intros idx proven db.
  - simpl. rewrite Nat.add_0_r. reflexivity.
  - cbn [app checkTrios List.length].
    destruct (match idx with
              | O => wrap BadGenesis
                       (validateGenesisBlock (second_Header (Second t)) db)
              | S _ => checkLinkedTrio proven t
              end) as [p| |]; simpl; [|reflexivity|reflexivity].
    rewrite IH. replace (S idx + List.length pre)%nat
      with (idx + S (List.length pre))%nat by lia. reflexivity.
Qed.

Lemma checkLinkedTrio_Ok_inv (proven : option ValidatorSet)
  (t : SnapshotBlockTrio) (next : ValidatorSet) :
  checkLinkedTrio proven t = Ok next ->
  trioLinked t
  /\ exists validatorSet serializedVCP vcp,
       proven = Some validatorSet
       /\ validateVotes validatorSet (second_Header (Second t))
            (cc_Votes (HCC (third_Header (Third t)))) = Ok tt
       /\ VerifyProof (StateHash (first_Header (First t)))
            ValidatorCandidatePoolKey (first_Proof (First t))
          = Some serializedVCP
       /\ DecodeVCP serializedVCP = Some vcp
       /\ next = SelectTopStakeHoldersAsValidators vcp.
Proof.
  unfold checkLinkedTrio, trioLinked.
  destruct (Parent (second_Header (Second t))
            =? BlockHeader_Hash (first_Header (First t))) eqn:E1;
    [|discriminate].
  destruct (Parent (third_Header (Third t))
            =? BlockHeader_Hash (second_Header (Second t))) eqn:E2;
    [|discriminate].
  destruct (cc_BlockHash (HCC (second_Header (Second t)))
            =? BlockHeader_Hash (first_Header (First t))) eqn:E3;
    [|discriminate].
  destruct (cc_BlockHash (HCC (third_Header (Third t)))
            =? BlockHeader_Hash (second_Header (Second t))) eqn:E4;
    [|discriminate].
  apply Z.eqb_eq in E1, E2, E3, E4. simpl.
  destruct proven as [validatorSet|]; [|discriminate].
  destruct (validateVotes validatorSet (second_Header (Second t))
              (cc_Votes (HCC (third_Header (Third t))))) as [[]| |] eqn:Ev;
    try discriminate.
  simpl. unfold getValidatorSetFromVCPProof.
  destruct (VerifyProof (StateHash (first_Header (First t)))
              ValidatorCandidatePoolKey (first_Proof (First t)))
    as [serializedVCP|] eqn:Ep; [|discriminate].
  destruct (DecodeVCP serializedVCP) as [vcp|] eqn:Ed; [|discriminate].
  simpl. intro H. inversion H; subst.
  split; [auto|]. exists validatorSet, serializedVCP, vcp. auto.
Qed.

Lemma validateGenesisBlock_Ok_inv (block : BlockHeader) (db : DB)
  (validatorSet : ValidatorSet) :
  wrap BadGenesis (validateGenesisBlock block db) = Ok validatorSet ->
  Height block = genesisBlockHeight
  /\ BlockHeader_Hash block = mainnetGenesisBlockHash
  /\ validatorSet
     = SelectTopStakeHoldersAsValidators
         (GetValidatorCandidatePool
            (NewStoreView (Height block) (StateHash block)) db).
Proof.
  unfold validateGenesisBlock.
  destruct (Height block =? genesisBlockHeight) eqn:E1; [|discriminate].
  destruct (BlockHeader_Hash block =? mainnetGenesisBlockHash) eqn:E2;
    [|discriminate].
  apply Z.eqb_eq in E1, E2. simpl. intro H. inversion H. auto.
Qed.

Lemma checkTrios_linked (trios : list SnapshotBlockTrio) :
  forall (idx : nat) (proven : option ValidatorSet) (db : DB)
    (final : option ValidatorSet),
    checkTrios (S idx) trios proven db = Ok final ->
    Forall trioLinked trios.
Proof.
  induction trios as [|t trios IH]; intros idx proven db final H;
    [constructor|].
  cbn [checkTrios] in H.
  destruct (checkLinkedTrio proven t) as [next| |] eqn:E; try discriminate.
  simpl in H. apply checkLinkedTrio_Ok_inv in E. destruct E as [Hl _].
  constructor; [exact Hl | exact (IH _ _ _ _ H)].
Qed.

Lemma checkSnapshot_Ok_inv (sv : option StoreView) (hash : Hash)
  (metadata : SnapshotMetadata) (db : DB) :
  checkSnapshot sv hash metadata db = Ok tt ->
  exists (tail : SnapshotBlockTrio) (proven : ValidatorSet) (v : StoreView),
    tailTrio metadata = Ok tail
    /\ StateHash (second_Header (Second tail)) = hash
    /\ checkTrios 0 (BlockTrios metadata) None db = Ok (Some proven)
    /\ sv = Some v
    /\ ValidatorSet_Equals proven
         (SelectTopStakeHoldersAsValidators (GetValidatorCandidatePool v db))
       = true.
Proof.
  unfold checkSnapshot.
  destruct (tailTrio metadata) as [tail| |] eqn:Et; try discriminate.
  simpl.
  destruct (StateHash (second_Header (Second tail)) =? hash) eqn:Eh;
    [|discriminate].
  apply Z.eqb_eq in Eh. simpl.
  destruct (checkTrios 0 (BlockTrios metadata) None db) as [[proven|]| |]
    eqn:Ec; try discriminate.
  simpl. destruct sv as [v|]; [|discriminate]. simpl.
  destruct (ValidatorSet_Equals proven
              (SelectTopStakeHoldersAsValidators
                 (GetValidatorCandidatePool v db))) eqn:Ee; [|discriminate].
  intros _. exists tail, proven, v. auto.
Qed.

End TrioChain.

(** What a snapshot that passes the check looks like. *)
Lemma checkSnapshot_shape :
  forall (C : Collaborators) (sv : option StoreView) (hash : Hash)
    (metadata : SnapshotMetadata) (db : DB),
    checkSnapshot sv hash metadata db = Ok tt ->
    exists (genesis : SnapshotBlockTrio) (later : list SnapshotBlockTrio)
      (tail : SnapshotBlockTrio),
      BlockTrios metadata = genesis :: later
      /\ Height (second_Header (Second genesis)) = genesisBlockHeight
      /\ BlockHeader_Hash (second_Header (Second genesis))
         = mainnetGenesisBlockHash
      /\ tailTrio metadata = Ok tail
      /\ StateHash (second_Header (Second tail)) = hash
      /\ sv <> None
      /\ Forall trioLinked later.
Proof.
  intros C sv hash metadata db H.
  apply checkSnapshot_Ok_inv in H.
  destruct H as [tail [proven [v [Ht [Hh [Hc [-> He]]]]]]].
  destruct (BlockTrios metadata) as [|genesis later] eqn:Eb.
  - unfold tailTrio in Ht. rewrite Eb in Ht. discriminate.
  - cbn [checkTrios] in Hc.
    destruct (wrap BadGenesis
                (validateGenesisBlock (second_Header (Second genesis)) db))
      as [p| |] eqn:Eg; try discriminate.
    apply validateGenesisBlock_Ok_inv in Eg. destruct Eg as [H1 [H2 _]].
    simpl in Hc. apply checkTrios_linked in Hc.
    exists genesis, later, tail. repeat split; auto. discriminate.
Qed.

(** X10.  A snapshot passes [checkSnapshot] only if its first trio is
    anchored at genesis: the second block of that trio is at the
    genesis height and has the hard-coded genesis hash.  The view
    handed over by [loadState] is then not nil, the state hash of the
    second block of the last trio is the hash handed over, and every
    trio after the first has its parent and HCC links in place. *)
Theorem checkSnapshot_success_shape :
  forall (C : Collaborators) (sv : option StoreView) (hash : Hash)
    (metadata : SnapshotMetadata) (db : DB),
    checkSnapshot sv hash metadata db = Ok tt ->
    exists (genesis : SnapshotBlockTrio) (later : list SnapshotBlockTrio)
      (tail : SnapshotBlockTrio),
      BlockTrios metadata = genesis :: later
      /\ Height (second_Header (Second genesis)) = genesisBlockHeight
      /\ BlockHeader_Hash (second_Header (Second genesis))
         = mainnetGenesisBlockHash
      /\ tailTrio metadata = Ok tail
      /\ StateHash (second_Header (Second tail)) = hash
      /\ sv <> None
      /\ Forall trioLinked later.
Proof.
  exact checkSnapshot_shape.
Qed.

(** The two-trio snapshot passes the check. *)
Lemma checkSnapshot_success_shape_witness :
  exists (genesis : SnapshotBlockTrio) (later : list SnapshotBlockTrio)
    (tail : SnapshotBlockTrio),
    BlockTrios Scenario.rotationMetadata = genesis :: later
    /\ Height (second_Header (Second genesis)) = genesisBlockHeight
    /\ BlockHeader_Hash (Collaborators := Sample.sample)
         (second_Header (Second genesis))
       = mainnetGenesisBlockHash
    /\ tailTrio Scenario.rotationMetadata = Ok tail
    /\ StateHash (second_Header (Second tail)) = Scenario.stateRoot
    /\ Some Cases.rotationView <> None
    /\ Forall (trioLinked (C := Sample.sample)) later.
Proof.
  apply (checkSnapshot_success_shape Sample.sample (Some Cases.rotationView)
           Scenario.stateRoot Scenario.rotationMetadata
           (Scenario.loadedDB false)).
  vm_compute; reflexivity.
Defined.

(** X11.  In a snapshot that passes [checkSnapshot], the votes that
    finalize the second block of the trio after the genesis trio (the
    votes in the HCC of its third block) are valid for the validator
    set read from the genesis state, and those of every later trio are
    valid for the validator set that the VCP proof of the first block
    of the trio before it proves under the state hash of that block. *)
Theorem checkSnapshot_votes_follow_proven_set :
  forall (C : Collaborators) (sv : option StoreView) (hash : Hash)
    (metadata : SnapshotMetadata) (db : DB)
    (pre : list SnapshotBlockTrio) (t1 t2 : SnapshotBlockTrio)
    (post : list SnapshotBlockTrio),
    checkSnapshot sv hash metadata db = Ok tt ->
    BlockTrios metadata = pre ++ t1 :: t2 :: post ->
    match pre with
    | [] =>
        validateVotes
          (SelectTopStakeHoldersAsValidators
             (GetValidatorCandidatePool
                (NewStoreView (Height (second_Header (Second t1)))
                   (StateHash (second_Header (Second t1))))
                db))
          (second_Header (Second t2))
          (cc_Votes (HCC (third_Header (Third t2))))
        = Ok tt
    | _ :: _ =>
        exists (serializedVCP : Bytes) (vcp : ValidatorCandidatePool),
          VerifyProof (StateHash (first_Header (First t1)))
            ValidatorCandidatePoolKey (first_Proof (First t1))
          = Some serializedVCP
          /\ DecodeVCP serializedVCP = Some vcp
          /\ validateVotes (SelectTopStakeHoldersAsValidators vcp)
               (second_Header (Second t2))
               (cc_Votes (HCC (third_Header (Third t2))))
             = Ok tt
    end.
Proof.
  intros C sv hash metadata db pre t1 t2 post H Hb.
  apply checkSnapshot_Ok_inv in H.
  destruct H as [tail [proven [v [_ [_ [Hc _]]]]]].
  rewrite Hb in Hc. destruct pre as [|t0 pre].
  - cbn [app checkTrios] in Hc.
    destruct (wrap BadGenesis
                (validateGenesisBlock (second_Header (Second t1)) db))
      as [g| |] eqn:Eg; try discriminate.
    apply validateGenesisBlock_Ok_inv in Eg. destruct Eg as [_ [_ ->]].
    simpl in Hc.
    destruct (checkLinkedTrio _ t2) as [n| |] eqn:E2; try discriminate.
    apply checkLinkedTrio_Ok_inv in E2.
    destruct E2 as [_ [vs [s [vcp [Hvs [Hv _]]]]]].
    inversion Hvs; subst. exact Hv.
  - rewrite checkTrios_app in Hc.
    destruct (checkTrios 0 (t0 :: pre) None db) as [p| |] eqn:Ep;
      try discriminate.
    cbn [bind List.length Nat.add checkTrios] in Hc.
    destruct (checkLinkedTrio p t1) as [n1| |] eqn:E1; try discriminate.
    cbn [bind] in Hc.
    destruct (checkLinkedTrio (Some n1) t2) as [n2| |] eqn:E2;
      try discriminate.
    apply checkLinkedTrio_Ok_inv in E1.
    destruct E1 as [_ [vs1 [s1 [vcp1 [_ [_ [Hp1 [Hd1 ->]]]]]]]].
    apply checkLinkedTrio_Ok_inv in E2.
    destruct E2 as [_ [vs2 [s2 [vcp2 [Hvs [Hv _]]]]]].
    inversion Hvs; subst. exists s1, vcp1. auto.
Qed.

(** The two-trio snapshot: the votes for block 0xA2 are valid for the
    validators of the genesis state; the three-trio snapshot: the votes
    for block 0xB2 are valid for the validators proven by the trio of
    block 0xA1. *)
Lemma checkSnapshot_votes_follow_proven_set_witness :
  validateVotes (C := Sample.sample)
    (SelectTopStakeHoldersAsValidators (Collaborators := Sample.sample)
       (GetValidatorCandidatePool (Collaborators := Sample.sample)
          (NewStoreView (Height (second_Header (Second Scenario.genesisTrio)))
             (StateHash (second_Header (Second Scenario.genesisTrio))))
          (Scenario.loadedDB false)))
    (second_Header (Second Scenario.laterTrio))
    (cc_Votes (HCC (third_Header (Third Scenario.laterTrio))))
  = Ok tt
  /\ exists (serializedVCP : Bytes) (vcp : ValidatorCandidatePool),
       VerifyProof (Collaborators := Sample.sample)
         (StateHash (first_Header (First Scenario.laterTrio)))
         (ValidatorCandidatePoolKey (Collaborators := Sample.sample))
         (first_Proof (First Scenario.laterTrio))
       = Some serializedVCP
       /\ DecodeVCP (Collaborators := Sample.sample) serializedVCP = Some vcp
       /\ validateVotes (C := Sample.sample)
            (SelectTopStakeHoldersAsValidators
               (Collaborators := Sample.sample) vcp)
            (second_Header (Second Cases.furtherTrio))
            (cc_Votes (HCC (third_Header (Third Cases.furtherTrio))))
          = Ok tt.
Proof.
  split.
  - refine (checkSnapshot_votes_follow_proven_set Sample.sample
              (Some Cases.rotationView) Scenario.stateRoot
              Scenario.rotationMetadata (Scenario.loadedDB false)
              [] Scenario.genesisTrio Scenario.laterTrio [] _ _).
    + vm_compute; reflexivity.
    + reflexivity.
  - refine (checkSnapshot_votes_follow_proven_set Sample.sample
              (Some Cases.furtherView) Scenario.stateRoot
              Cases.threeTrioMetadata (Scenario.loadedDB false)
              [Scenario.genesisTrio] Scenario.laterTrio Cases.furtherTrio []
              _ _).
    + vm_compute; reflexivity.
    + reflexivity.
Defined.

(** X12.  Of the first trio of the list [checkSnapshot] reads the
    second block only: two snapshots that differ in the first block,
    the VCP proof or the third block of that trio get the same
    result. *)
Theorem checkSnapshot_reads_genesis_second_only :
  forall (C : Collaborators) (sv : option StoreView) (hash : Hash)
    (genesis genesis' : SnapshotBlockTrio) (later : list SnapshotBlockTrio)
    (db : DB),
    Second genesis = Second genesis' ->
    checkSnapshot sv hash {| BlockTrios := genesis :: later |} db
    = checkSnapshot sv hash {| BlockTrios := genesis' :: later |} db.
Proof.
  intros C sv hash genesis genesis' later db Hs.
  unfold checkSnapshot. destruct later as [|t later].
  - unfold tailTrio. cbn [BlockTrios List.length nth_error bind checkTrios].
    rewrite Hs. reflexivity.
  - unfold tailTrio. cbn [BlockTrios List.length nth_error].
    destruct (nth_error (t :: later) (List.length later)) as [tail|];
      [|reflexivity].
    cbn [bind checkTrios]. rewrite Hs. reflexivity.
Qed.

(** The genesis snapshot with the first and third blocks of its trio
    replaced by those of the later trio. *)
Lemma checkSnapshot_reads_genesis_second_only_witness :
  checkSnapshot (C := Sample.sample) (Some Scenario.loadedView)
    Scenario.stateRoot {| BlockTrios := [Scenario.genesisTrio] |}
    (Scenario.loadedDB false)
  = checkSnapshot (C := Sample.sample) (Some Scenario.loadedView)
      Scenario.stateRoot
      {| BlockTrios :=
           [ {| First := First Scenario.laterTrio;
                Second := Second Scenario.genesisTrio;
                Third := Third Scenario.laterTrio |} ] |}
      (Scenario.loadedDB false).
Proof.
  apply (checkSnapshot_reads_genesis_second_only Sample.sample).
  reflexivity.
Defined.

(* ================================================================= *)
(** ** loadSnapshot, continued *)

(** X13.  [LoadSnapshot] returns a header only for a snapshot of one
    trio: its metadata lists exactly one trio, whose second block is at
    the genesis height and has the genesis hash, and the header
    returned is the header of that block.  (With a second trio the
    write of the first trio panics.) *)
Theorem LoadSnapshot_success_is_genesis_only :
  forall (C : Collaborators) (file : option SnapshotFile) (db db' : DB)
    (header : BlockHeader),
    LoadSnapshot file db = Ok (header, db') ->
    exists (f : SnapshotFile) (trio : SnapshotBlockTrio),
      file = Some f
      /\ file_metadata f = Some {| BlockTrios := [trio] |}
      /\ Height (second_Header (Second trio)) = genesisBlockHeight
      /\ BlockHeader_Hash (second_Header (Second trio))
         = mainnetGenesisBlockHash
      /\ header = second_Header (Second trio).
Proof.
  intros C file db db' header H. unfold LoadSnapshot, loadSnapshot in H.
  destruct file as [f|]; [|discriminate].
  destruct (file_metadata f) as [metadata|] eqn:Em; [|discriminate].
  destruct (loadState (file_records f) db) as [[[sv hash] db1]| |];
    try discriminate.
  simpl in H.
  destruct (checkSnapshot sv hash metadata db1) as [[]| |] eqn:Ec;
    try discriminate.
  simpl in H.
  apply checkSnapshot_shape in Ec.
  destruct Ec as [genesis [later [tail [Eb [Hh [Hg [Ht _]]]]]]].
  rewrite Eb in H. destruct later as [|t later].
  - cbn in H. unfold saveTailBlocks in H. rewrite Ht in H.
    unfold tailTrio in Ht. rewrite Eb in Ht. cbn in Ht.
    inversion Ht; subst tail; clear Ht. cbn [bind] in H.
    destruct sv as [v|]; [|discriminate].
    inversion H; subst. exists f, genesis.
    destruct metadata as [trios]. simpl in Eb. subst trios. auto.
  - cbn [List.length saveBlockTrios] in H.
    replace (Z.of_nat 0 <? Z.of_nat (S (S (List.length later))) - 1)
      with true in H by (symmetry; apply Z.ltb_lt; lia).
    rewrite FormatUint_base_64 in H. discriminate.
Qed.

(** The genesis snapshot is such a snapshot. *)
Lemma LoadSnapshot_success_is_genesis_only_witness :
  exists (f : SnapshotFile) (trio : SnapshotBlockTrio),
    Some Scenario.genesisFile = Some f
    /\ file_metadata f = Some {| BlockTrios := [trio] |}
    /\ Height (second_Header (Second trio)) = genesisBlockHeight
    /\ BlockHeader_Hash (Collaborators := Sample.sample)
         (second_Header (Second trio))
       = mainnetGenesisBlockHash
    /\ Scenario.genesisHeader = second_Header (Second trio).
Proof.
  apply (LoadSnapshot_success_is_genesis_only Sample.sample
           (Some Scenario.genesisFile) Sample.emptyDB
           {| Sample.db_nodes := Sample.db_nodes (Scenario.loadedDB false);
              Sample.db_kv :=
                [(Hash_Bytes mainnetGenesisBlockHash,
                  StoredBlock Scenario.genesisExt)];
              Sample.db_readonly := false |}
           Scenario.genesisHeader).
  vm_compute; reflexivity.
Defined.

(** X14.  For a snapshot whose metadata lists no trio, once the state
    stream is loaded [LoadSnapshot] panics on the index of the last
    trio; it does not return an error. *)
Theorem LoadSnapshot_no_trio_panics :
  forall (C : Collaborators) (f : SnapshotFile) (db : DB)
    (loaded : option StoreView * Hash * DB),
    file_metadata f = Some {| BlockTrios := [] |} ->
    loadState (file_records f) db = Ok loaded ->
    LoadSnapshot (Some f) db = Panic IndexOutOfRange.
Proof.
  intros C f db [[sv hash] db1] Hm Hl.
  unfold LoadSnapshot, loadSnapshot. rewrite Hm, Hl. reflexivity.
Qed.

Lemma LoadSnapshot_no_trio_panics_witness :
  LoadSnapshot (C := Sample.sample) (Some Cases.noTrioFile) Sample.emptyDB
  = Panic IndexOutOfRange.
Proof.
  refine (LoadSnapshot_no_trio_panics Sample.sample Cases.noTrioFile
            Sample.emptyDB
            (Some Scenario.loadedView, Scenario.stateRoot,
             Scenario.loadedDB false) _ _).
  - reflexivity.
  - vm_compute; reflexivity.
Defined.

(* ================================================================= *)
(** ** validateVotes, continued *)

(** X15.  [validateVotes] stops at the first vote it does not accept
    and the votes after it are not looked at: with a majority and every
    vote before it accepted, the error is VoteNotValid when the vote
    does not verify, else VoteWrongBlock when it names another block,
    else ValidatorNotFound.  Without a majority the error is NoMajority
    whatever the votes are. *)
Theorem validateVotes_first_rejected_vote :
  forall (C : Collaborators) (validatorSet : ValidatorSet)
    (block : BlockHeader) (pre : list Vote) (vote : Vote) (post : list Vote),
    (HasMajority validatorSet (pre ++ vote :: post) = false ->
     validateVotes validatorSet block (pre ++ vote :: post) = Err NoMajority)
    /\ (HasMajority validatorSet (pre ++ vote :: post) = true ->
        Forall (voteAccepted validatorSet block) pre ->
        ~ voteAccepted validatorSet block vote ->
        validateVotes validatorSet block (pre ++ vote :: post)
        = Err (if negb (Vote_Validate vote) then VoteNotValid
               else if negb (vote_Block vote =? BlockHeader_Hash block)
                    then VoteWrongBlock
                    else ValidatorNotFound)).
Proof.
  intros C validatorSet block pre vote post. unfold validateVotes. split.
  - intros ->. reflexivity.
  - intros -> Hpre Hbad. simpl negb. cbv iota.
    induction Hpre as [|v pre Hv Hpre IH].
    + simpl. unfold voteAccepted in Hbad.
      destruct (Vote_Validate vote); simpl; [|reflexivity].
      destruct (vote_Block vote =? BlockHeader_Hash block) eqn:Eb; simpl;
        [|reflexivity].
      apply Z.eqb_eq in Eb.
      destruct (GetValidator validatorSet (vote_ID vote)); [|reflexivity].
      exfalso. apply Hbad. repeat split; auto. discriminate.
    + simpl. destruct Hv as [H1 [H2 H3]]. rewrite H1, H2, Z.eqb_refl. simpl.
      destruct (GetValidator validatorSet (vote_ID v)); [exact IH|].
      exfalso. apply H3. reflexivity.
Qed.

(** Two votes of the three validators for block 0xA2 followed by a vote
    for another block. *)
Lemma validateVotes_first_rejected_vote_witness :
  validateVotes (C := Sample.sample) Scenario.validators Scenario.laterSecond
    ([Scenario.voteFor 0xA2 1; Scenario.voteFor 0xA2 2]
     ++ Scenario.voteFor 0xA3 3 :: [Scenario.voteFor 0xA2 3])
  = Err VoteWrongBlock.
Proof.
  refine (proj2 (validateVotes_first_rejected_vote Sample.sample
                   Scenario.validators Scenario.laterSecond
                   [Scenario.voteFor 0xA2 1; Scenario.voteFor 0xA2 2]
                   (Scenario.voteFor 0xA3 3) [Scenario.voteFor 0xA2 3])
            _ _ _).
  - reflexivity.
  - repeat constructor; try reflexivity; discriminate.
  - intros [_ [H _]]. vm_compute in H. discriminate.
Defined.

(* ================================================================= *)
(** ** str2hex2bytes *)

Lemma parse_hexOf (b : byte) : byte_of_Z (fst (ParseUint (hexOf b) 16)) = b.
Proof. destruct b; vm_compute; reflexivity. Qed.

Lemma hexOf_second_not_x (b : byte) :
  Byte.eqb (digit (Z.of_N (Byte.to_N b) mod 16)) "x"%byte = false.
Proof. destruct b; vm_compute; reflexivity. Qed.

Lemma str2hex2bytes_loop_hexEncode (bs : Bytes) :
  forall acc : Bytes, str2hex2bytes_loop (hexEncode bs) acc = Ok (acc ++ bs).
Proof.
  induction bs as [|b bs IH]; intro acc.
  - simpl. rewrite app_nil_r. reflexivity.
  - change (hexEncode (b :: bs))
      with (digit (Z.of_N (Byte.to_N b) / 16)
            :: digit (Z.of_N (Byte.to_N b) mod 16) :: hexEncode bs).
    cbn [str2hex2bytes_loop].
    change [digit (Z.of_N (Byte.to_N b) / 16);
            digit (Z.of_N (Byte.to_N b) mod 16)] with (hexOf b).
    rewrite parse_hexOf, IH, <- app_assoc. reflexivity.
Qed.

Lemma hexEncode_no_prefix (bs : Bytes) :
  HasPrefix (hexEncode bs) (bytes_of "0x") = false.
Proof.
  destruct bs as [|b bs]; [reflexivity|].
  change (hexEncode (b :: bs))
    with (digit (Z.of_N (Byte.to_N b) / 16)
          :: digit (Z.of_N (Byte.to_N b) mod 16) :: hexEncode bs).
  change (bytes_of "0x") with ["0"%byte; "x"%byte].
  cbn [HasPrefix]. rewrite hexOf_second_not_x.
  rewrite andb_false_l, andb_false_r. reflexivity.
Qed.

(** X16.  [str2hex2bytes] reads back the lower-case hexadecimal
    spelling of any byte string, with or without a leading "0x". *)
Theorem str2hex2bytes_hexEncode :
  forall bs : Bytes,
    str2hex2bytes (hexEncode bs) = Ok bs
    /\ str2hex2bytes (bytes_of "0x" ++ hexEncode bs) = Ok bs.
Proof.
  intro bs. unfold str2hex2bytes, TrimPrefix. split.
  - rewrite hexEncode_no_prefix. apply str2hex2bytes_loop_hexEncode.
  - change (bytes_of "0x" ++ hexEncode bs)
      with ("0"%byte :: "x"%byte :: hexEncode bs).
    change (bytes_of "0x") with ["0"%byte; "x"%byte].
    cbn [HasPrefix Byte.eqb]. simpl.
    assert (Hn : HasPrefix (hexEncode bs) [] = true)
      by (destruct (hexEncode bs); reflexivity).
    rewrite Hn. apply str2hex2bytes_loop_hexEncode.
Qed.

Lemma str2hex2bytes_loop_shape (s : Bytes) :
  forall acc : Bytes,
    (Nat.even (List.length s) = true ->
     exists bs : Bytes,
       str2hex2bytes_loop s acc = Ok (acc ++ bs)
       /\ (2 * List.length bs = List.length s)%nat)
    /\ (Nat.even (List.length s) = false ->
        str2hex2bytes_loop s acc = Panic IndexOutOfRange).
Proof.
  assert (H : forall s : Bytes,
             (forall acc : Bytes,
                 (Nat.even (List.length s) = true ->
                  exists bs : Bytes,
                    str2hex2bytes_loop s acc = Ok (acc ++ bs)
                    /\ (2 * List.length bs = List.length s)%nat)
                 /\ (Nat.even (List.length s) = false ->
                     str2hex2bytes_loop s acc = Panic IndexOutOfRange))
             /\ (forall (a : byte) (acc : Bytes),
                    (Nat.even (List.length (a :: s)) = true ->
                     exists bs : Bytes,
                       str2hex2bytes_loop (a :: s) acc = Ok (acc ++ bs)
                       /\ (2 * List.length bs = List.length (a :: s))%nat)
                    /\ (Nat.even (List.length (a :: s)) = false ->
                        str2hex2bytes_loop (a :: s) acc
                        = Panic IndexOutOfRange))).
  { induction s0 as [|b s0 [IH1 IH2]].
    - split.
      + intro acc. split; [|discriminate].
        intros _. exists []. rewrite app_nil_r. auto.
      + intros a acc. split; [discriminate | reflexivity].
    - split; [exact (IH2 b)|].
      intros a acc. cbn [str2hex2bytes_loop List.length Nat.even].
      destruct (IH1 (acc ++ [byte_of_Z (fst (ParseUint [a; b] 16))]))
        as [He Ho].
      split; [|exact Ho].
      intro E. destruct (He E) as [bs [Hr Hl]].
      exists (byte_of_Z (fst (ParseUint [a; b] 16)) :: bs).
      rewrite Hr, <- app_assoc. simpl. split; [reflexivity | lia]. }
  exact (proj1 (H s)).
Qed.

(** X17.  With the leading "0x" taken off (once), a string of an even
    number of characters gives one byte for every two characters,
    whatever the characters are; a string of an odd number of
    characters makes [str2hex2bytes] panic on the slice of its last
    character. *)
Theorem str2hex2bytes_length :
  forall str : Bytes,
    (Nat.even (List.length (TrimPrefix str (bytes_of "0x"))) = true ->
     exists bs : Bytes,
       str2hex2bytes str = Ok bs
       /\ (2 * List.length bs
           = List.length (TrimPrefix str (bytes_of "0x")))%nat)
    /\ (Nat.even (List.length (TrimPrefix str (bytes_of "0x"))) = false ->
        str2hex2bytes str = Panic IndexOutOfRange).
Proof.
  intro str.
  assert (E : str2hex2bytes str
              = str2hex2bytes_loop (TrimPrefix str (bytes_of "0x")) []).
  { unfold str2hex2bytes, TrimPrefix.
    destruct (HasPrefix str (bytes_of "0x")); reflexivity. }
  rewrite E.
  exact (str2hex2bytes_loop_shape (TrimPrefix str (bytes_of "0x")) []).
Qed.

(** "0x1" and "0x12ff". *)
Lemma str2hex2bytes_length_witness :
  str2hex2bytes (bytes_of "0x1") = Panic IndexOutOfRange
  /\ exists bs : Bytes,
       str2hex2bytes (bytes_of "0x12ff") = Ok bs
       /\ (2 * List.length bs
           = List.length (TrimPrefix (bytes_of "0x12ff") (bytes_of "0x")))%nat.
Proof.
  split.
  - apply (proj2 (str2hex2bytes_length (bytes_of "0x1"))). reflexivity.
  - apply (proj1 (str2hex2bytes_length (bytes_of "0x12ff"))). reflexivity.
Defined.

Lemma digitValue_bound (c : byte) (d : Z) :
  digitValue c = Some d -> 0 <= d < 36.
Proof.
  unfold digitValue.
  destruct ((48 <=? Z.of_N (Byte.to_N c)) && (Z.of_N (Byte.to_N c) <=? 57))
    eqn:E1.
  - apply andb_true_iff in E1. destruct E1 as [A B].
    apply Z.leb_le in A, B. intro H. inversion H. lia.
  - destruct ((97 <=? Z.of_N (Byte.to_N c))
              && (Z.of_N (Byte.to_N c) <=? 122)) eqn:E2.
    + apply andb_true_iff in E2. destruct E2 as [A B].
      apply Z.leb_le in A, B. intro H. inversion H. lia.
    + destruct ((65 <=? Z.of_N (Byte.to_N c))
                && (Z.of_N (Byte.to_N c) <=? 90)) eqn:E3; [|discriminate].
      apply andb_true_iff in E3. destruct E3 as [A B].
      apply Z.leb_le in A, B. intro H. inversion H. lia.
Qed.

(** X18.  Each pair of characters gives one byte: sixteen times the
    value of the first plus the value of the second when both are
    hexadecimal digits (in either case), and the zero byte when one of
    them is not; the error [strconv.ParseUint] returns for such a pair
    is dropped, and the loop goes on with the rest. *)
Theorem str2hex2bytes_pair :
  forall (a b : byte) (rest acc : Bytes),
    str2hex2bytes_loop (a :: b :: rest) acc
    = str2hex2bytes_loop rest
        (acc ++ [match digitValue a, digitValue b with
                 | Some x, Some y =>
                     if (x <? 16) && (y <? 16) then byte_of_Z (16 * x + y)
                     else x00
                 | _, _ => x00
                 end]).
Proof.
  intros a b rest acc. cbn [str2hex2bytes_loop]. do 3 f_equal.
  unfold ParseUint. cbn [parseDigits].
  destruct (digitValue a) as [x|] eqn:Ea; [|reflexivity].
  pose proof (digitValue_bound a x Ea) as Hx.
  destruct (x <? 16) eqn:Ex.
  - apply Z.ltb_lt in Ex.
    replace (16 <=? x) with false by (symmetry; apply Z.leb_gt; lia).
    replace (maxUint64 / 16 + 1 <=? 0) with false by reflexivity.
    replace (maxUint64 <? 0 * 16 + x) with false
      by (symmetry; apply Z.ltb_ge; unfold maxUint64; lia).
    destruct (digitValue b) as [y|] eqn:Eb; [|reflexivity].
    pose proof (digitValue_bound b y Eb) as Hy.
    destruct (y <? 16) eqn:Ey.
    + apply Z.ltb_lt in Ey.
      replace (16 <=? y) with false by (symmetry; apply Z.leb_gt; lia).
      replace (maxUint64 / 16 + 1 <=? 0 * 16 + x) with false
        by (symmetry; apply Z.leb_gt;
            change (maxUint64 / 16 + 1) with 1152921504606846976; lia).
      replace (maxUint64 <? (0 * 16 + x) * 16 + y) with false
        by (symmetry; apply Z.ltb_ge; unfold maxUint64; lia).
      simpl andb. cbv iota. simpl fst. f_equal. lia.
    + apply Z.ltb_ge in Ey.
      replace (16 <=? y) with true by (symmetry; apply Z.leb_le; lia).
      rewrite andb_false_r. reflexivity.
  - apply Z.ltb_ge in Ex.
    replace (16 <=? x) with true by (symmetry; apply Z.leb_le; lia).
    simpl. destruct (digitValue b); reflexivity.
Qed.


(** X20.  The votes that come with the third block of the last trio
    have no part in the result of [checkSnapshot]: replacing them by any
    other vote set gives the same result. *)
Theorem checkSnapshot_tail_votes_unread :
  forall (C : Collaborators) (sv : option StoreView) (hash : Hash)
    (trios : list SnapshotBlockTrio) (trio : SnapshotBlockTrio)
    (votes : VoteSet) (db : DB),
    checkSnapshot sv hash
      {| BlockTrios :=
           trios ++ [ {| First := First trio; Second := Second trio;
                         Third :=
                           {| third_Header := third_Header (Third trio);
                              third_VoteSet := votes |} |} ] |}
      db
    = checkSnapshot sv hash {| BlockTrios := trios ++ [trio] |} db.
Proof.
  intros C sv hash trios trio votes db.
  apply checkSnapshot_ignores_tail_votes.
Qed.
